(** * Downloads organizer: a shallow embedding of [downloads_organizer.py]

    The development follows the Python module top-down:
    - [Str]: the [str] methods the module calls ([lower], [rfind], [split]);
    - [PurePath]: the part of [pathlib] (POSIX flavour, CPython 3.11) that
      [organize_file] and [process_existing_files] go through;
    - [EXTENSIONS] and the classification loop of [organize_file];
    - a flat POSIX file system with [mkdir], [os.rename] and [shutil.move];
    - the [FileOrganizer] methods, written in a state-and-exception monad;
    - the properties of the registry, the sweep and the mover. *)

From Stdlib Require Import ZArith Ascii String List Lia Bool.
From stdpp Require Import base tactics option list strings gmap fin_maps.

Open Scope Z_scope.

(** ** Python strings *)

Module Str.

(** A Python [str] is held as the bytes of its UTF-8 encoding. *)

(** U+212A, the Kelvin sign, and U+0130, the capital I with a dot above. *)
Definition kelvin_sign : string := String "226" (String "132" (String "170" "")).
Definition dotted_I : string := String "196" (String "176" "").

(** [str.lower] on one ASCII character. *)
Definition lower_char (c : ascii) : ascii :=
  let n := N_of_ascii c in
  if ((65 <=? n) && (n <=? 90))%N then ascii_of_N (n + 32) else c.

(** [str.lower]. It is exact on ASCII and on the two characters outside
    ASCII whose lower-case form holds an ASCII character: the Kelvin sign
    becomes [k], the dotted capital I becomes [i] followed by U+0307. Every
    other character outside ASCII has a lower-case form outside ASCII and
    is kept as it is, so that a string is lower-cased to an ASCII string
    here exactly when Python lower-cases it to that string. *)
Fixpoint lower (s : string) : string :=
  match s with
  | EmptyString => EmptyString
  | String c s' =>
      match s' with
      | String c1 rest1 =>
          if bool_decide (c = "196"%char /\ c1 = "176"%char) then
            String "i" (String "204" (String "135" (lower rest1)))
          else
            match rest1 with
            | String c2 rest2 =>
                if bool_decide (c = "226"%char /\ c1 = "132"%char /\ c2 = "170"%char)
                then String "k" (lower rest2)
                else String (lower_char c) (lower s')
            | EmptyString => String (lower_char c) (lower s')
            end
      | EmptyString => String (lower_char c) (lower s')
      end
  end.

(** The letters [a-z] of a string put in upper case, and nothing else
    changed: a way to write a name in other case, not [str.upper]. *)
Definition upper_char (c : ascii) : ascii :=
  let n := N_of_ascii c in
  if ((97 <=? n) && (n <=? 122))%N then ascii_of_N (n - 32) else c.

Fixpoint upper (s : string) : string :=
  match s with
  | EmptyString => EmptyString
  | String c s' => String (upper_char c) (upper s')
  end.

Definition len (s : string) : Z := Z.of_nat (String.length s).

(** [s.rfind(c)]: the highest index at which [c] occurs, or [-1]. *)
Fixpoint rfind (c : ascii) (s : string) : Z :=
  match s with
  | EmptyString => -1
  | String a s' =>
      let i := rfind c s' in
      if 0 <=? i then i + 1
      else if bool_decide (a = c) then 0 else -1
  end.

(** [s[i:]] for [0 <= i]. *)
Fixpoint drop (n : nat) (s : string) : string :=
  match n, s with
  | O, _ => s
  | S _, EmptyString => EmptyString
  | S n', String _ s' => drop n' s'
  end.

Definition slice_from (i : Z) (s : string) : string := drop (Z.to_nat i) s.

(** [s.count(c)]. *)
Fixpoint count (c : ascii) (s : string) : nat :=
  match s with
  | EmptyString => O
  | String a s' => (if bool_decide (a = c) then 1 else 0)%nat + count c s'
  end.

(** [s.split(sep)] for a one-character separator: the pieces between the
    separators, the empty ones included. *)
Fixpoint split (sep : ascii) (s : string) : list string :=
  match s with
  | EmptyString => [EmptyString]
  | String a s' =>
      if bool_decide (a = sep) then EmptyString :: split sep s'
      else match split sep s' with
           | [] => [String a EmptyString]
           | x :: xs => String a x :: xs
           end
  end.

(** [sep.join(parts)]. *)
Fixpoint join (sep : string) (parts : list string) : string :=
  match parts with
  | [] => EmptyString
  | [x] => x
  | x :: rest => x +:+ sep +:+ join sep rest
  end.

(** [s.lstrip(c)]. *)
Fixpoint lstrip (c : ascii) (s : string) : string :=
  match s with
  | EmptyString => EmptyString
  | String a s' => if bool_decide (a = c) then lstrip c s' else s
  end.

End Str.

(** ** pathlib, POSIX flavour

    A parsed path is its root (the empty string, one slash or exactly two
    slashes) and the components after it; [pathlib] keeps the drive too,
    which is always empty on POSIX. *)

Module PurePath.

Record t := mk { root : string; tail : list string }.

Global Instance eq_dec : EqDecision t.
Proof. solve_decision. Defined.

(** [_PosixFlavour.splitroot]. *)
Definition splitroot (part : string) : string * string :=
  match part with
  | String "/" _ =>
      let stripped_part := Str.lstrip "/" part in
      if bool_decide (Str.len part - Str.len stripped_part = 2)
      then ("//", stripped_part)
      else ("/", stripped_part)
  | _ => ("", part)
  end.

(** The components [parse_parts] keeps of the part after the root. *)
Definition components (rel : string) : list string :=
  filter (fun x => x <> "" /\ x <> ".") (Str.split "/" rel).

(** [Path(a)] for one [str] argument. *)
Definition Path (a : string) : t :=
  let '(r, rel) := splitroot a in
  {| root := r; tail := components rel |}.

(** [self / key] ([_make_child] with [join_parsed_parts]): an anchored
    right operand replaces the path, any other one extends it. *)
Definition truediv (self : t) (key : string) : t :=
  let other := Path key in
  if bool_decide (root other = "") then
    {| root := root self; tail := tail self ++ tail other |}
  else other.

(** [str(self)]. *)
Definition str (self : t) : string :=
  let s := root self +:+ Str.join "/" (tail self) in
  if bool_decide (s = "") then "." else s.

(** [self.name]. *)
Definition name (self : t) : string := List.last (tail self) "".

(** [self.suffix]. *)
Definition suffix (self : t) : string :=
  let name := name self in
  let i := Str.rfind "." name in
  if (0 <? i) && (i <? Str.len name - 1) then Str.slice_from i name else "".

(** [self.parent]. *)
Definition parent (self : t) : t :=
  {| root := root self; tail := removelast (tail self) |}.

End PurePath.

Notation "p // key" := (PurePath.truediv p key) (at level 40, left associativity).

(** ** The extension table and the classification loop *)

(** [EXTENSIONS], in the order the dictionary literal lists its items. *)
Definition EXTENSIONS : list (string * list string) :=
  [ ("images", [".jpg"; ".jpeg"; ".png"; ".gif"; ".bmp"; ".tiff"; ".webp"; ".svg"; ".ico"]);
    ("videos", [".mp4"; ".avi"; ".mkv"; ".mov"; ".wmv"; ".flv"; ".webm"; ".m4v"; ".3gp"]);
    ("documents", [".pdf"; ".doc"; ".docx"; ".txt"; ".xlsx"; ".ppt"; ".pptx"; ".csv"; ".odt"]);
    ("music", [".mp3"; ".wav"; ".flac"; ".m4a"; ".ogg"; ".midi"; ".aac"; ".wma"]);
    ("programs", [".exe"; ".msi"; ".app"; ".bat"; ".cmd"; ".py"; ".jar"; ".dll"]);
    ("compressed", [".zip"; ".rar"; ".7z"; ".tar"; ".gz"; ".bz2"; ".xz"; ".iso"]);
    ("others", []) ].

(** The loop [for cat, extensions in EXTENSIONS.items()] of [organize_file]:
    [category] is the value assigned before the loop, the first list that
    holds the lower-cased suffix assigns its key and breaks. *)
Fixpoint classify_loop (items : list (string * list string))
    (suffix : string) (category : string) : string :=
  match items with
  | [] => category
  | (cat, extensions) :: rest =>
      if bool_decide (Str.lower suffix ∈ extensions) then cat
      else classify_loop rest suffix category
  end.

(** Lines 81-85 of [organize_file]. *)
Definition classify (suffix : string) : string :=
  classify_loop EXTENSIONS suffix "others".

(** The category [organize_file] computes for the path it is given. *)
Definition category_of (file_path : string) : string :=
  classify (PurePath.suffix (PurePath.Path file_path)).

(** ** Exceptions and the log *)

Inductive exn :=
  | FileExistsError (path : string)
  | FileNotFoundError (path : string)
  | NotADirectoryError (path : string)
  | IsADirectoryError (path : string)
  | OSError (msg : string)
  | ShutilError (msg : string)
  | KeyError (key : string)
  | RuntimeError (msg : string).

(** [str(e)]. *)
Definition str_exn (e : exn) : string :=
  match e with
  | FileExistsError p => "[Errno 17] File exists: '" +:+ p +:+ "'"
  | FileNotFoundError p => "[Errno 2] No such file or directory: '" +:+ p +:+ "'"
  | NotADirectoryError p => "[Errno 20] Not a directory: '" +:+ p +:+ "'"
  | IsADirectoryError p => "[Errno 21] Is a directory: '" +:+ p +:+ "'"
  | OSError msg => msg
  | ShutilError msg => msg
  | KeyError k => "'" +:+ k +:+ "'"
  | RuntimeError msg => msg
  end.

(** A record of the [logging] module: [logging.info] or [logging.error]
    with the formatted message. *)
Inductive log_record :=
  | INFO (msg : string)
  | ERROR (msg : string).

Inductive result (A : Type) :=
  | Ok (a : A)
  | Raise (e : exn).
Arguments Ok {A} a.
Arguments Raise {A} e.

(** ** A flat POSIX file system

    The file system maps the path strings [pathlib] hands to the system
    calls to what is there: a regular file with its [st_ctime] and contents,
    or a directory. One device and one user: permissions, symbolic links
    and dot-dot resolution are outside the model, so the only failures are
    the structural ones (a missing parent, a name taken by the wrong kind of
    entry). Timestamps are on the scale of [datetime]: microseconds. *)

Inductive node :=
  | File (st_ctime : Z) (data : string)
  | Dir.

Global Instance node_eq_dec : EqDecision node.
Proof. solve_decision. Defined.

Abbreviation filesystem := (gmap string node).

Module Posix.

Definition exists_ (fs : filesystem) (p : string) : bool :=
  match fs !! p with Some _ => true | None => false end.

Definition isdir (fs : filesystem) (p : string) : bool :=
  match fs !! p with Some Dir => true | _ => false end.

Definition isfile (fs : filesystem) (p : string) : bool :=
  match fs !! p with Some (File _ _) => true | _ => false end.

(** The directory a path's last component is looked up in. *)
Definition dirname (p : string) : string :=
  PurePath.str (PurePath.parent (PurePath.Path p)).

(** [k] names something strictly below the directory [d]. *)
Definition is_under (d k : string) : bool :=
  let pd := PurePath.Path d in
  let pk := PurePath.Path k in
  bool_decide (PurePath.root pd = PurePath.root pk)
  && bool_decide (take (length (PurePath.tail pd)) (PurePath.tail pk) = PurePath.tail pd)
  && bool_decide (length (PurePath.tail pd) < length (PurePath.tail pk))%nat.

(** Where [k] ends up when the directory [src] is renamed to [dst]. *)
Definition rekey (src dst k : string) : string :=
  if bool_decide (k = src) then dst
  else if is_under src k then
    PurePath.str
      {| PurePath.root := PurePath.root (PurePath.Path dst);
         PurePath.tail := PurePath.tail (PurePath.Path dst)
                          ++ drop (length (PurePath.tail (PurePath.Path src)))
                                  (PurePath.tail (PurePath.Path k)) |}
  else k.

Definition has_children (fs : filesystem) (d : string) : bool :=
  existsb (fun kv => is_under d kv.1) (map_to_list fs).

Definition move_tree (fs : filesystem) (src dst : string) : filesystem :=
  list_to_map (map (fun kv => (rekey src dst kv.1, kv.2)) (map_to_list (delete dst fs))).

(** [os.mkdir(p)]. *)
Definition mkdir (fs : filesystem) (p : string) : result filesystem :=
  match fs !! p with
  | Some _ => Raise (FileExistsError p)
  | None =>
      match fs !! dirname p with
      | Some Dir => Ok (<[p := Dir]> fs)
      | Some (File _ _) => Raise (NotADirectoryError p)
      | None => Raise (FileNotFoundError p)
      end
  end.

(** [os.rename(src, dst)]: a regular file replaces a regular file of the
    destination's name without a word; a directory replaces an empty
    directory only. The system stamps the inode's [st_ctime] anew at a
    rename; the file system here has no clock, the node is carried over as
    it is, and the [st_ctime] it has at its new name stands for a time that
    is not known: the module reads [st_ctime] in the startup scan only, and
    the properties of the organizer speak of the contents of a file that
    was moved, not of its [st_ctime]. *)
Definition rename (fs : filesystem) (src dst : string) : result filesystem :=
  match fs !! src with
  | None => Raise (FileNotFoundError src)
  | Some n =>
      if bool_decide (src = dst) then Ok fs
      else
        match fs !! dirname dst with
        | None => Raise (FileNotFoundError src)
        | Some (File _ _) => Raise (NotADirectoryError src)
        | Some Dir =>
            match n, fs !! dst with
            | File _ _, Some Dir => Raise (IsADirectoryError src)
            | File _ _, _ => Ok (<[dst := n]> (delete src fs))
            | Dir, Some (File _ _) => Raise (NotADirectoryError src)
            | Dir, o =>
                if is_under src dst then Raise (OSError "[Errno 22] Invalid argument")
                else if match o with Some _ => has_children fs dst | None => false end
                then Raise (OSError "[Errno 39] Directory not empty")
                else Ok (move_tree fs src dst)
            end
        end
  end.

End Posix.

(** [Path.exists], [Path.is_file], [Path.is_dir], [Path.stat]. *)
Definition Path_exists (fs : filesystem) (p : PurePath.t) : bool :=
  Posix.exists_ fs (PurePath.str p).

Definition Path_is_file (fs : filesystem) (p : PurePath.t) : bool :=
  Posix.isfile fs (PurePath.str p).

Definition Path_is_dir (fs : filesystem) (p : PurePath.t) : bool :=
  Posix.isdir fs (PurePath.str p).

Definition Path_stat (fs : filesystem) (p : PurePath.t) : result node :=
  match fs !! PurePath.str p with
  | Some n => Ok n
  | None => Raise (FileNotFoundError (PurePath.str p))
  end.

(** [stat().st_ctime] followed by [datetime.fromtimestamp]: the module reads
    it on regular files only; a directory carries no timestamp here. *)
Definition st_ctime_of (n : node) : Z :=
  match n with File c _ => c | Dir => 0 end.

(** [Path.mkdir(exist_ok=True)] with [parents=False]: a missing parent is
    raised as it is; any other [OSError] is swallowed exactly when the path
    is a directory already. *)
Definition Path_mkdir_exist_ok (fs : filesystem) (p : PurePath.t) : result filesystem :=
  match Posix.mkdir fs (PurePath.str p) with
  | Ok fs' => Ok fs'
  | Raise (FileNotFoundError q) => Raise (FileNotFoundError q)
  | Raise e => if Path_is_dir fs p then Ok fs else Raise e
  end.

(** The name a key of the file system has inside the directory [d], when it
    is one of its direct entries. *)
Definition child_name (d : PurePath.t) (k : string) : option string :=
  let pk := PurePath.Path k in
  if bool_decide (PurePath.str pk = k)
     && bool_decide (PurePath.root pk = PurePath.root d)
     && bool_decide (PurePath.tail pk = PurePath.tail d ++ [PurePath.name pk])
  then Some (PurePath.name pk) else None.

(** [os.scandir(d)]: the names of the entries of [d]. *)
Definition scandir (fs : filesystem) (d : PurePath.t) : list string :=
  omap (fun kv => child_name d kv.1) (map_to_list fs).

(** [d.glob('*')]: nothing when [d] is not a directory, else one child path
    for every entry ([pathlib]'s wildcard also matches dot files). *)
Definition Path_glob_star (fs : filesystem) (d : PurePath.t) : list PurePath.t :=
  if Path_is_dir fs d then map (fun n => d // n) (scandir fs d) else [].

(** [shutil.move(src, dst)]. The copy-and-delete fallback it takes when
    [os.rename] fails is for moves across devices; on the one device of this
    model a failed rename is the failure of the move. *)
Definition shutil_move (fs : filesystem) (src dst : string) : result filesystem :=
  if Posix.isdir fs dst then
    if bool_decide (src = dst) then Posix.rename fs src dst
    else
      let real_dst := PurePath.str (PurePath.Path dst // PurePath.name (PurePath.Path src)) in
      if Posix.exists_ fs real_dst
      then Raise (ShutilError ("Destination path '" +:+ real_dst +:+ "' already exists"))
      else Posix.rename fs src real_dst
  else Posix.rename fs src dst.

(** ** Python dictionaries

    [pending_files] is a [dict]: its items are kept in insertion order,
    assigning to a key that is present replaces the value where it stands,
    and deleting a key that is absent raises [KeyError]. *)

Abbreviation dict := (list (string * Z)).

Fixpoint dict_get (k : string) (d : dict) : option Z :=
  match d with
  | [] => None
  | (k', v) :: rest => if bool_decide (k' = k) then Some v else dict_get k rest
  end.

(** [d[k] = v]. *)
Fixpoint dict_setitem (k : string) (v : Z) (d : dict) : dict :=
  match d with
  | [] => [(k, v)]
  | (k', v') :: rest =>
      if bool_decide (k' = k) then (k, v) :: rest
      else (k', v') :: dict_setitem k v rest
  end.

(** [del d[k]]. *)
Fixpoint dict_delitem (k : string) (d : dict) : result dict :=
  match d with
  | [] => Raise (KeyError k)
  | (k', v') :: rest =>
      if bool_decide (k' = k) then Ok rest
      else match dict_delitem k rest with
           | Ok rest' => Ok ((k', v') :: rest')
           | Raise e => Raise e
           end
  end.

(** The keys of a dictionary are pairwise distinct. *)
Definition dict_wf (d : dict) : Prop := NoDup d.*1.

(** ** The organizer and its world *)

(** [datetime] values and [timedelta]s, in microseconds. *)
Definition timedelta_hours (h : Z) : Z := h * 3600 * 1000000.

(** The fields of a [FileOrganizer] together with what its methods act on:
    the file system and the log file. *)
Record state := mkState {
  downloads_path : string;
  pending_files : dict;
  fs : filesystem;
  log : list log_record
}.

Definition set_pending_files (d : dict) (s : state) : state :=
  mkState (downloads_path s) d (fs s) (log s).

Definition set_fs (f : filesystem) (s : state) : state :=
  mkState (downloads_path s) (pending_files s) f (log s).

Definition add_log (r : log_record) (s : state) : state :=
  mkState (downloads_path s) (pending_files s) (fs s) (log s ++ [r]).

(** A method either returns or raises, and leaves a state behind in both
    cases. *)
Definition M (A : Type) : Type := state -> result A * state.

Global Instance M_ret : MRet M := fun A a s => (Ok a, s).

Global Instance M_bind : MBind M := fun A B f m s =>
  match m s with
  | (Ok a, s') => f a s'
  | (Raise e, s') => (Raise e, s')
  end.

Definition get : M state := fun s => (Ok s, s).

Definition modify (f : state -> state) : M unit := fun s => (Ok tt, f s).

(** Run a system call on the file system of the state. *)
Definition syscall (f : filesystem -> result filesystem) : M unit := fun s =>
  match f (fs s) with
  | Ok fs' => (Ok tt, set_fs fs' s)
  | Raise e => (Raise e, s)
  end.

Definition lift {A} (r : result A) : M A := fun s => (r, s).

(** [try: body except Exception as e: handler(e)]. *)
Definition try_except {A} (body : M A) (handler : exn -> M A) : M A := fun s =>
  match body s with
  | (Ok a, s') => (Ok a, s')
  | (Raise e, s') => handler e s'
  end.

(** [for x in xs: body(x)]. *)
Fixpoint for_each {A} (xs : list A) (body : A -> M unit) : M unit :=
  match xs with
  | [] => mret tt
  | x :: rest => body x ;; for_each rest body
  end.

Definition logging_info (msg : string) : M unit := modify (add_log (INFO msg)).
Definition logging_error (msg : string) : M unit := modify (add_log (ERROR msg)).

(** A [FileSystemEvent] as far as [on_created] reads it. *)
Record event := mkEvent { is_directory : bool; src_path : string }.

(** [organize_file] between [try:] and [except]. *)
Definition organize_body (file_path : string) : M unit :=
  let file := PurePath.Path file_path in
  s ← get;
  if negb (Path_exists (fs s) file) then mret tt
  else
    let category := classify (PurePath.suffix file) in
    let dest_folder := PurePath.Path (downloads_path s) // category in
    syscall (fun f => Path_mkdir_exist_ok f dest_folder) ;;
    syscall (fun f => shutil_move f (PurePath.str file)
                        (PurePath.str (dest_folder // PurePath.name file))) ;;
    logging_info ("File organized: " +:+ PurePath.name file +:+ " -> " +:+ category).

Definition organize_file (file_path : string) : M unit :=
  try_except (organize_body file_path)
    (fun e => logging_error ("Error organizing " +:+ file_path +:+ ": " +:+ str_exn e)).

(** The body of the loop of [process_existing_files]. *)
Definition add_existing_file (file_path : PurePath.t) : M unit :=
  s ← get;
  if Path_is_file (fs s) file_path then
    n ← lift (Path_stat (fs s) file_path);
    let creation_time := st_ctime_of n in
    modify (fun s => set_pending_files
              (dict_setitem (PurePath.str file_path) creation_time (pending_files s)) s) ;;
    logging_info ("Added existing file to queue: " +:+ PurePath.name file_path)
  else mret tt.

(** [process_existing_files]. *)
Definition process_existing_files : M unit :=
  logging_info "Processing existing files..." ;;
  s ← get;
  let downloads_dir := PurePath.Path (downloads_path s) in
  for_each (Path_glob_star (fs s) downloads_dir) add_existing_file.

(** [__init__]: the state the constructor leaves, given the file system
    and the log it finds. *)
Definition init (downloads_path : string) (f : filesystem) (l : list log_record)
    : result unit * state :=
  (logging_info ("Organizer started. Monitoring: " +:+ downloads_path) ;;
   process_existing_files)
    (mkState downloads_path [] f l).

(** [os.path.basename]. *)
Definition os_path_basename (p : string) : string :=
  Str.slice_from (Str.rfind "/" p + 1) p.

(** [on_created], at the time [now] that [datetime.now()] returns. *)
Definition on_created (ev : event) (now : Z) : M unit :=
  if negb (is_directory ev) then
    let file_path := src_path ev in
    modify (fun s => set_pending_files (dict_setitem file_path now (pending_files s)) s) ;;
    logging_info ("New file detected: " +:+ os_path_basename file_path)
  else mret tt.

(** The first loop of [process_pending_files] over the items that are
    left, with the list [files_to_remove] built so far. *)
Fixpoint sweep_loop (current_time : Z) (items : dict) (files_to_remove : list string)
    : M (list string) :=
  match items with
  | [] => mret files_to_remove
  | (file_path, creation_time) :: rest =>
      if bool_decide (current_time - creation_time >= timedelta_hours 24) then
        organize_file file_path ;;
        sweep_loop current_time rest (files_to_remove ++ [file_path])
      else sweep_loop current_time rest files_to_remove
  end.

Definition del_pending (file_path : string) : M unit := fun s =>
  match dict_delitem file_path (pending_files s) with
  | Ok d => (Ok tt, set_pending_files d s)
  | Raise e => (Raise e, s)
  end.

(** [process_pending_files], at the time [current_time] that
    [datetime.now()] returns on its first line. *)
Definition process_pending_files (current_time : Z) : M unit :=
  s ← get;
  files_to_remove ← sweep_loop current_time (pending_files s) [];
  for_each files_to_remove del_pending.

(** One turn of the [while True] loop of [main], with the time that
    [datetime.now()] returns inside the sweep; [time.sleep(7200)] only lets
    time pass. *)
Definition main_iteration (now : Z) : M unit :=
  logging_info "Starting pending files check..." ;;
  process_pending_files now ;;
  logging_info "Check completed. Next check in 2 hours".

(** The first turns of the loop of [main], one for each time of the list. *)
Definition main_loop (times : list Z) : M unit :=
  for_each times main_iteration.




(** ** Notions the properties are stated with *)

(** The bytes of the sequences [lower] looks for and writes: none is a
    letter. *)
Definition high (x : ascii) : Prop :=
  x ∈ ["196"; "176"; "226"; "132"; "170"; "204"; "135"]%char.

(** The sequence a string starts with, when it is one of the two that
    [lower] replaces, with its replacement and what follows it. *)
Definition special (s : string) : option (string * string) :=
  match s with
  | String c (String c1 rest1) =>
      if bool_decide (c = "196"%char /\ c1 = "176"%char) then
        Some (String "i" (String "204" (String "135" "")), rest1)
      else
        match rest1 with
        | String c2 rest2 =>
            if bool_decide (c = "226"%char /\ c1 = "132"%char /\ c2 = "170"%char)
            then Some ("k", rest2) else None
        | EmptyString => None
        end
  | _ => None
  end.

(** The part of a file name from its last dot on. *)
Definition from_last_dot (name : string) : string :=
  Str.slice_from (Str.rfind "." name) name.

(** What a regular file holds, whatever its [st_ctime]: nothing for a
    directory or a name that is free. *)
Definition contents (f : filesystem) (p : string) : option string :=
  match f !! p with
  | Some (File _ data) => Some data
  | _ => None
  end.

(** Where [organize_file] asks [shutil.move] to put a file: under its own
    name, in the folder of its category, in the watched directory. *)
Definition dest_folder (s : state) (file_path : string) : PurePath.t :=
  PurePath.Path (downloads_path s) // category_of file_path.

Definition destination (s : state) (file_path : string) : string :=
  PurePath.str (dest_folder s file_path // PurePath.name (PurePath.Path file_path)).

(** What [organize_file] logs when it has moved a file, and when it has
    caught [e]. *)
Definition organized_record (file_path : string) : log_record :=
  INFO ("File organized: " +:+ PurePath.name (PurePath.Path file_path)
        +:+ " -> " +:+ category_of file_path).

Definition error_record (file_path : string) (e : exn) : log_record :=
  ERROR ("Error organizing " +:+ file_path +:+ ": " +:+ str_exn e).

(** The entries a sweep at [current_time] finds old enough, in the order
    of the registry. *)
Definition due (current_time : Z) (d : dict) : list string :=
  (filter (fun kv => current_time - kv.2 >= timedelta_hours 24) d).*1.

(** The state after [organize_file] has been called on each path in turn. *)
Definition organize_all (paths : list string) (s : state) : state :=
  foldl (fun s p => (organize_file p s).2) s paths.

(** The paths the first loop of a sweep calls [organize_file] on: the list
    [files_to_remove] it hands to the second loop. *)
Definition files_to_remove (current_time : Z) (s : state) : list string :=
  match sweep_loop current_time (pending_files s) [] s with
  | (Ok l, _) => l
  | (Raise _, _) => []
  end.



(** The states an organizer goes through: the constructor builds the first
    one, then notifications and sweeps alternate in any order, at any
    times, while the rest of the system changes the files and the log. *)
Inductive reachable : state -> Prop :=
  | reach_init dp f l s :
      init dp f l = (Ok tt, s) -> reachable s
  | reach_created s ev now s' :
      reachable s -> on_created ev now s = (Ok tt, s') -> reachable s'
  | reach_sweep s now s' :
      reachable s -> process_pending_files now s = (Ok tt, s') -> reachable s'
  | reach_env s f l :
      reachable s -> reachable (mkState (downloads_path s) (pending_files s) f l).

(** A path component as [parse_parts] keeps them. *)
Definition component (c : string) : Prop :=
  c <> "" /\ c <> "." /\ Str.count "/" c = 0%nat.

(** The parsed paths [Path] and [/] build. *)
Definition path_wf (p : PurePath.t) : Prop :=
  PurePath.root p ∈ ["" ; "/" ; "//"] /\ Forall component (PurePath.tail p).

(** ** The sweep and the notification handler, interleaved

    [main] runs the sweep in the main thread while the observer calls
    [on_created] from its own thread, on the same dictionary and with no
    lock. The first loop of [process_pending_files] iterates over the live
    dictionary: the iterator remembers the size the dictionary had when the
    loop started ([di_used]) and the index of the next item ([di_pos]), and
    every step of the loop first compares that size with the current one,
    raising [RuntimeError] when they differ. A sweep is therefore run here
    one loop iteration at a time, and a schedule says where the
    notifications fall between the iterations. *)

Inductive phase :=
  | Iterating
  | Deleting (todo : list string)
  | Returned
  | Raised (e : exn).

Record sweep := mkSweep {
  sw_phase : phase;
  sw_current_time : Z;
  di_used : nat;
  di_pos : nat;
  sw_files_to_remove : list string
}.

Definition set_phase (ph : phase) (sw : sweep) : sweep :=
  mkSweep ph (sw_current_time sw) (di_used sw) (di_pos sw) (sw_files_to_remove sw).

(** The first two lines of [process_pending_files] and the creation of the
    iterator. *)
Definition start_sweep (current_time : Z) (s : state) : sweep :=
  mkSweep Iterating current_time (length (pending_files s)) 0 [].

(** One iteration of the first loop, or one of the second. *)
Definition sweep_step (sw : sweep) (s : state) : sweep * state :=
  match sw_phase sw with
  | Iterating =>
      if bool_decide (length (pending_files s) <> di_used sw) then
        (set_phase (Raised (RuntimeError "dictionary changed size during iteration")) sw, s)
      else
        match pending_files s !! di_pos sw with
        | None => (set_phase (Deleting (sw_files_to_remove sw)) sw, s)
        | Some (file_path, creation_time) =>
            if bool_decide (sw_current_time sw - creation_time >= timedelta_hours 24) then
              match organize_file file_path s with
              | (Ok _, s') =>
                  (mkSweep Iterating (sw_current_time sw) (di_used sw) (S (di_pos sw))
                     (sw_files_to_remove sw ++ [file_path]), s')
              | (Raise e, s') => (set_phase (Raised e) sw, s')
              end
            else
              (mkSweep Iterating (sw_current_time sw) (di_used sw) (S (di_pos sw))
                 (sw_files_to_remove sw), s)
        end
  | Deleting [] => (set_phase Returned sw, s)
  | Deleting (file_path :: rest) =>
      match del_pending file_path s with
      | (Ok _, s') => (set_phase (Deleting rest) sw, s')
      | (Raise e, s') => (set_phase (Raised e) sw, s')
      end
  | Returned | Raised _ => (sw, s)
  end.

(** What happens next: the sweep takes a step, or the observer delivers a
    notification. *)
Inductive tick :=
  | Step
  | Notify (ev : event) (now : Z).

Fixpoint run (schedule : list tick) (sw : sweep) (s : state) : sweep * state :=
  match schedule with
  | [] => (sw, s)
  | Step :: rest => let '(sw', s') := sweep_step sw s in run rest sw' s'
  | Notify ev now :: rest => run rest sw (on_created ev now s).2
  end.

(** What holds of a sweep under way and the state it runs in, whatever the
    notifications so far; [keys0] are the keys the registry had when the
    sweep started. *)
Definition sweep_inv (keys0 : list string) (sw : sweep) (s : state) : Prop :=
  dict_wf (pending_files s)
  /\ NoDup (sw_files_to_remove sw)
  /\ sw_files_to_remove sw ⊆ keys0
  /\ match sw_phase sw with
     | Iterating =>
         di_used sw = length keys0
         /\ keys0 `prefix_of` (pending_files s).*1
         /\ sw_files_to_remove sw ⊆ take (di_pos sw) keys0
     | Deleting todo =>
         (exists done, sw_files_to_remove sw = done ++ todo)
         /\ todo ⊆ (pending_files s).*1
     | Returned | Raised _ => True
     end.

(** ** Scenarios

    A watched directory [/d] that holds [report.PDF], created at time 0,
    and [photo.png], created 24 hours later; sweeps are run at hour 25
    and after. *)

Module Scenario.

Definition hour (h : Z) : Z := timedelta_hours h.

Definition home : filesystem :=
  list_to_map
    [ ("/", Dir); ("/d", Dir);
      ("/d/report.PDF", File 0 "%PDF-1.7");
      ("/d/photo.png", File (hour 24) "PNG") ].

(** The same directory when a regular file already has the name of the
    documents folder. *)
Definition home_blocked : filesystem :=
  <["/d/documents" := File (hour 24) "notes"]> home.

(** The same directory when the documents folder already holds a
    [report.PDF]. *)
Definition home_taken : filesystem :=
  <["/d/documents/report.PDF" := File (hour 1) "old report"]>
    (<["/d/documents" := Dir]> home).

(** The same directory when the documents folder already holds a
    directory of the name [report.PDF], with a file of that name in it. *)
Definition home_clash : filesystem :=
  <["/d/documents/report.PDF/report.PDF" := File (hour 1) "old report"]>
    (<["/d/documents/report.PDF" := Dir]> (<["/d/documents" := Dir]> home)).

(** The same directory after [report.PDF] has been deleted by hand. *)
Definition home_deleted : filesystem := delete "/d/report.PDF" home.

Definition started (f : filesystem) : state := (init "/d" f []).2.

Definition created (path : string) : event := mkEvent false path.

(** A sweep takes one step, a download is announced, the sweep goes on. *)
Definition racing : list tick :=
  [Step; Notify (created "/d/new.zip") (hour 49); Step].

End Scenario.

(** * Properties *)

(** ** Strings *)

Lemma lower_char_idem c : Str.lower_char (Str.lower_char c) = Str.lower_char c.
Proof. by destruct c as [[] [] [] [] [] [] [] []]. Qed.

Lemma lower_upper_char c : Str.lower_char (Str.upper_char c) = Str.lower_char c.
Proof. by destruct c as [[] [] [] [] [] [] [] []]. Qed.

Lemma upper_char_high c x : high x -> Str.upper_char c = x <-> c = x.
Proof.
  unfold high. intros Hx.
  repeat (apply elem_of_cons in Hx as [->|Hx]; [destruct c as [[] [] [] [] [] [] [] []]; by split|]).
  by apply elem_of_nil in Hx.
Qed.

Lemma lower_char_high c x : high x -> Str.lower_char c = x <-> c = x.
Proof.
  unfold high. intros Hx.
  repeat (apply elem_of_cons in Hx as [->|Hx]; [destruct c as [[] [] [] [] [] [] [] []]; by split|]).
  by apply elem_of_nil in Hx.
Qed.

Lemma string_length_ind (P : string -> Prop) :
  (forall s, (forall t, (String.length t < String.length s)%nat -> P t) -> P s) ->
  forall s, P s.
Proof.
  intros Hstep s. remember (String.length s) as n eqn:Hn.
  revert s Hn. induction (lt_wf n) as [n _ IH]. intros s ->.
  apply Hstep. intros t Ht. by eapply IH.
Qed.

Lemma lower_unfold c s' :
  Str.lower (String c s')
  = match special (String c s') with
    | Some (out, rest) => out +:+ Str.lower rest
    | None => String (Str.lower_char c) (Str.lower s')
    end.
Proof.
  destruct s' as [|c1 [|c2 rest2]]; [reflexivity| |].
  - unfold special. simpl. case_bool_decide; reflexivity.
  - unfold special. simpl. repeat case_bool_decide; reflexivity.
Qed.

Lemma special_length s out rest :
  special s = Some (out, rest) -> (String.length rest < String.length s)%nat.
Proof.
  unfold special. destruct s as [|c [|c1 rest1]]; try done.
  case_bool_decide; [intros [= <- <-]; simpl; lia|].
  destruct rest1 as [|c2 rest2]; [done|].
  case_bool_decide; [|done]. intros [= <- <-]; simpl; lia.
Qed.

Lemma special_upper s :
  special (Str.upper s)
  = match special s with
    | Some (out, rest) => Some (out, Str.upper rest)
    | None => None
    end.
Proof.
  unfold special. destruct s as [|c [|c1 rest1]]; try done. simpl.
  rewrite (bool_decide_ext _ (c = "196"%char /\ c1 = "176"%char))
    by (rewrite !upper_char_high by (unfold high; set_solver); done).
  case_bool_decide; [done|].
  destruct rest1 as [|c2 rest2]; [done|]. simpl.
  rewrite (bool_decide_ext _ (c = "226"%char /\ c1 = "132"%char /\ c2 = "170"%char))
    by (rewrite !upper_char_high by (unfold high; set_solver); done).
  by case_bool_decide.
Qed.

Lemma lower_upper s : Str.lower (Str.upper s) = Str.lower s.
Proof.
  induction s as [s IH] using string_length_ind.
  destruct s as [|c s']; [done|].
  change (Str.upper (String c s')) with (String (Str.upper_char c) (Str.upper s')).
  rewrite !lower_unfold.
  change (String (Str.upper_char c) (Str.upper s')) with (Str.upper (String c s')).
  rewrite special_upper.
  destruct (special (String c s')) as [[out rest]|] eqn:Hsp.
  - rewrite IH; [done|]. by eapply special_length.
  - rewrite lower_upper_char, IH; [done|]. simpl. lia.
Qed.

Lemma append_String a s t : String a s +:+ t = String a (s +:+ t).
Proof. reflexivity. Qed.

Lemma append_empty t : "" +:+ t = t.
Proof. reflexivity. Qed.

Lemma special_out s out rest :
  special s = Some (out, rest) ->
  exists y out', out = String y out' /\ (y = "i" \/ y = "k")%char.
Proof.
  unfold special. destruct s as [|c [|c1 rest1]]; try done.
  case_bool_decide; [intros [= <- <-]; eauto|].
  destruct rest1 as [|c2 rest2]; [done|].
  case_bool_decide; [|done]. intros [= <- <-]; eauto.
Qed.

(** A byte of the two sequences at the head of [lower t] was at the head
    of [t], which does not start with one of the sequences. *)
Lemma lower_first t x rest' :
  Str.lower t = String x rest' ->
  x ∈ ["176"; "132"; "170"]%char ->
  exists t', t = String x t' /\ special t = None /\ rest' = Str.lower t'.
Proof.
  intros Hlow Hx. destruct t as [|c t']; [done|].
  rewrite lower_unfold in Hlow.
  destruct (special (String c t')) as [[out rest]|] eqn:Hsp.
  - destruct (special_out _ _ _ Hsp) as (y & out' & -> & Hy).
    change (String y out' +:+ Str.lower rest) with (String y (out' +:+ Str.lower rest)) in Hlow. injection Hlow as -> _.
    exfalso. clear -Hy Hx.
    repeat (apply elem_of_cons in Hx as [->|Hx]; [by destruct Hy|]).
    by apply elem_of_nil in Hx.
  - injection Hlow as Hc <-.
    assert (c = x) as -> by (apply (lower_char_high c x); [unfold high; set_solver|done]).
    eauto.
Qed.

Lemma special_lower_none c s' :
  special (String c s') = None ->
  special (String (Str.lower_char c) (Str.lower s')) = None.
Proof.
  intros Hnone. unfold special at 1.
  destruct (Str.lower s') as [|y1 r1] eqn:Hl1; [done|].
  case_bool_decide as Hi.
  { destruct Hi as [Hc ->].
    assert (c = "196"%char) as ->
      by (apply (lower_char_high c); [unfold high; set_solver|done]).
    destruct (lower_first _ _ _ Hl1) as (t' & -> & _); [set_solver|].
    by vm_compute in Hnone. }
  destruct r1 as [|y2 r2]; [done|].
  case_bool_decide as Hk; [|done].
  destruct Hk as (Hc & -> & ->).
  assert (c = "226"%char) as ->
    by (apply (lower_char_high c); [unfold high; set_solver|done]).
  destruct (lower_first _ _ _ Hl1) as (t' & -> & _ & Hl2); [set_solver|].
  symmetry in Hl2. destruct (lower_first _ _ _ Hl2) as (t'' & -> & _); [set_solver|].
  by vm_compute in Hnone.
Qed.

Lemma lower_plain c t :
  c <> "196"%char -> c <> "226"%char ->
  Str.lower (String c t) = String (Str.lower_char c) (Str.lower t).
Proof.
  intros H1 H2. rewrite lower_unfold. unfold special.
  destruct t as [|c1 t1]; [done|].
  rewrite bool_decide_eq_false_2 by (by intros [? _]).
  destruct t1 as [|c2 t2]; [done|].
  by rewrite bool_decide_eq_false_2 by (by intros [? _]).
Qed.

Lemma lower_idem s : Str.lower (Str.lower s) = Str.lower s.
Proof.
  induction s as [s IH] using string_length_ind.
  destruct s as [|c s']; [done|].
  rewrite (lower_unfold c s').
  destruct (special (String c s')) as [[out rest]|] eqn:Hsp.
  - pose proof (special_length _ _ _ Hsp) as Hlen. specialize (IH rest Hlen).
    unfold special in Hsp. destruct s' as [|c1 rest1]; [done|].
    case_bool_decide.
    + injection Hsp as <- <-. rewrite !append_String, append_empty.
      rewrite !lower_plain by done. by rewrite IH.
    + destruct rest1 as [|c2 rest2]; [done|].
      case_bool_decide; [|done]. injection Hsp as <- <-.
      rewrite !append_String, append_empty.
      rewrite lower_plain by done. by rewrite IH.
  - rewrite lower_unfold, (special_lower_none _ _ Hsp), lower_char_idem, IH; [done|].
    simpl. lia.
Qed.

Lemma len_nonneg s : 0 <= Str.len s.
Proof. unfold Str.len. lia. Qed.

Lemma len_String c s : Str.len (String c s) = Str.len s + 1.
Proof. unfold Str.len. simpl. lia. Qed.

Lemma rfind_range c s : -1 <= Str.rfind c s < Str.len s.
Proof.
  induction s as [|a s IH]; simpl.
  - unfold Str.len. simpl. lia.
  - rewrite len_String. destruct (Z.leb_spec 0 (Str.rfind c s)); [lia|].
    case_bool_decide; lia.
Qed.

Lemma rfind_count c s : (1 <= Str.count c s)%nat -> 0 <= Str.rfind c s.
Proof.
  induction s as [|a s IH]; simpl; [lia|].
  intros Hc. destruct (Z.leb_spec 0 (Str.rfind c s)); [lia|].
  case_bool_decide; [lia|]. simpl in Hc. lia.
Qed.

Lemma rfind_count2 c s : (2 <= Str.count c s)%nat -> 1 <= Str.rfind c s.
Proof.
  destruct s as [|a s]; simpl; [lia|].
  intros Hc. assert (1 <= Str.count c s)%nat as H1 by (case_bool_decide; lia).
  apply rfind_count in H1. destruct (Z.leb_spec 0 (Str.rfind c s)); lia.
Qed.

(** From the index [rfind] returns on, the string is the character followed
    by what is left of it. *)
Lemma slice_from_rfind c s :
  0 <= Str.rfind c s ->
  exists r, Str.slice_from (Str.rfind c s) s = String c r
            /\ Str.len r = Str.len s - 1 - Str.rfind c s.
Proof.
  unfold Str.slice_from. induction s as [|a s IH]; simpl; [lia|].
  intros Hr. rewrite len_String.
  destruct (Z.leb_spec 0 (Str.rfind c s)) as [Hge|Hlt].
  - destruct (IH Hge) as (r & Hd & Hl).
    replace (Z.to_nat (Str.rfind c s + 1)) with (S (Z.to_nat (Str.rfind c s))) by lia.
    simpl. exists r. split; [done|lia].
  - case_bool_decide as Hac; [|lia]. subst a. simpl. exists s. split; [done|].
    pose proof (rfind_range c s). lia.
Qed.

(** ** Classification *)

Lemma classify_loop_lower items s c :
  classify_loop items (Str.lower s) c = classify_loop items s c.
Proof.
  induction items as [|[cat exts] rest IH]; simpl; [done|].
  by rewrite lower_idem, IH.
Qed.

Lemma classify_loop_cases items s c :
  (classify_loop items s c = c /\ forall cat exts, (cat, exts) ∈ items -> Str.lower s ∉ exts)
  \/ exists before cat exts after,
       items = before ++ (cat, exts) :: after
       /\ classify_loop items s c = cat
       /\ Str.lower s ∈ exts
       /\ forall cat' exts', (cat', exts') ∈ before -> Str.lower s ∉ exts'.
Proof.
  induction items as [|[cat exts] rest IH]; simpl.
  - left. split; [done|]. intros ?? Hin. by apply elem_of_nil in Hin.
  - case_bool_decide as Hm.
    + right. exists [], cat, exts, rest. repeat split; [done..|].
      intros ?? Hin. by apply elem_of_nil in Hin.
    + destruct IH as [[Hc Hno]|(before & cat' & exts' & after & -> & Hc & Hin & Hno)].
      * left. split; [done|]. intros cat' exts' [Heq|Hin]%elem_of_cons; [|by eauto].
        by injection Heq as -> ->.
      * right. exists ((cat, exts) :: before), cat', exts', after.
        repeat split; [done..|].
        intros c' e' [Heq|Hin']%elem_of_cons; [|by eauto]. by injection Heq as -> ->.
Qed.

(** No extension is listed under two categories. *)
Lemma EXTENSIONS_disjoint x cat exts cat' exts' :
  (cat, exts) ∈ EXTENSIONS -> (cat', exts') ∈ EXTENSIONS ->
  x ∈ exts -> x ∈ exts' -> cat = cat'.
Proof.
  unfold EXTENSIONS. intros H1 H2 Hx Hx'.
  repeat (apply elem_of_cons in H1 as [H1|H1]; [injection H1 as -> ->|]);
    [..|by apply elem_of_nil in H1];
    repeat (apply elem_of_cons in Hx as [->|Hx]); try (by apply elem_of_nil in Hx);
    repeat (apply elem_of_cons in H2 as [H2|H2]; [injection H2 as -> ->|]);
    try (by apply elem_of_nil in H2); try reflexivity;
    exfalso; revert Hx'; refine (proj1 (bool_decide_eq_false _) _); vm_compute; reflexivity.
Qed.

Lemma classify_in_table s cat exts :
  (cat, exts) ∈ EXTENSIONS -> Str.lower s ∈ exts -> classify s = cat.
Proof.
  intros Hin Hs. unfold classify.
  destruct (classify_loop_cases EXTENSIONS s "others")
    as [[_ Hno]|(before & cat' & exts' & after & Heq & -> & Hin' & _)].
  - by destruct (Hno _ _ Hin).
  - symmetry. eapply EXTENSIONS_disjoint; [done| |done..].
    rewrite Heq. apply elem_of_app. right. by left.
Qed.

Lemma classify_fallback s :
  (forall cat exts, (cat, exts) ∈ EXTENSIONS -> Str.lower s ∉ exts) ->
  classify s = "others".
Proof.
  intros Hno. unfold classify.
  destruct (classify_loop_cases EXTENSIONS s "others")
    as [[-> _]|(before & cat' & exts' & after & Heq & _ & Hin' & _)]; [done|].
  destruct (Hno cat' exts'); [|done]. rewrite Heq. apply elem_of_app. right. by left.
Qed.

Lemma classify_is_category s : classify s ∈ EXTENSIONS.*1.
Proof.
  unfold classify.
  destruct (classify_loop_cases EXTENSIONS s "others")
    as [[-> _]|(before & cat' & exts' & after & Heq & -> & _ & _)].
  - vm_compute. repeat ((by left) || right).
  - rewrite Heq, fmap_app, elem_of_app. right. simpl. by left.
Qed.

(** C6. Classification is total and case-insensitive: every string, the
    empty one and unknown extensions included, is given one of the
    categories of the table; two strings that agree after lower-casing get
    the same category; a string whose lower-cased form is listed under a
    category gets that category; a string listed nowhere gets [others];
    and [.jpg], [.mp3], [.zip] and [.xyz] map to images, music, compressed
    and others. Lower-casing is the one of [str.lower]: [.M] followed by the
    Kelvin sign and [V] is lower-cased to [.mkv] and is a video, and a
    capital I with a dot above does not make [.tif] of [.T], it and [F]. *)
Theorem classify_total_case_insensitive :
  (forall s, classify s ∈ EXTENSIONS.*1)
  /\ (forall s1 s2, Str.lower s1 = Str.lower s2 -> classify s1 = classify s2)
  /\ (forall s, classify (Str.upper s) = classify s /\ classify (Str.lower s) = classify s)
  /\ (forall s cat exts,
        (cat, exts) ∈ EXTENSIONS -> Str.lower s ∈ exts -> classify s = cat)
  /\ (forall s,
        (forall cat exts, (cat, exts) ∈ EXTENSIONS -> Str.lower s ∉ exts) ->
        classify s = "others")
  /\ classify ".jpg" = "images" /\ classify ".mp3" = "music"
  /\ classify ".zip" = "compressed" /\ classify ".xyz" = "others"
  /\ classify "" = "others" /\ classify ".JPG" = "images"
  /\ category_of "/home/u/Downloads/report.PDF" = "documents"
  /\ Str.lower (".M" +:+ Str.kelvin_sign +:+ "V") = ".mkv"
  /\ classify (".M" +:+ Str.kelvin_sign +:+ "V") = "videos"
  /\ classify (".T" +:+ Str.dotted_I +:+ "F") = "others".
Proof.
  split; [exact classify_is_category|].
  split.
  { intros s1 s2 Heq. unfold classify.
    by rewrite <- (classify_loop_lower _ s1), <- (classify_loop_lower _ s2), Heq. }
  split.
  { intros s. unfold classify. split.
    - by rewrite <- (classify_loop_lower _ (Str.upper s)), lower_upper, classify_loop_lower.
    - apply classify_loop_lower. }
  split; [exact classify_in_table|].
  split; [exact classify_fallback|].
  repeat split; reflexivity.
Qed.

(** ** The suffix of a name with several dots *)

Lemma suffix_several_dots (name : string) :
  (2 <= Str.count "." name)%nat ->
  let i := Str.rfind "." name in
  (if (0 <? i) && (i <? Str.len name - 1) then Str.slice_from i name else "")
  = from_last_dot name
  \/ ((if (0 <? i) && (i <? Str.len name - 1) then Str.slice_from i name else "") = ""
      /\ from_last_dot name = ".").
Proof.
  intros Hc i. subst i. pose proof (rfind_count2 _ _ Hc) as Hi.
  pose proof (rfind_range "." name) as Hr.
  destruct (Z.ltb_spec 0 (Str.rfind "." name)); [|lia]. simpl.
  destruct (Z.ltb_spec (Str.rfind "." name) (Str.len name - 1)); [by left|].
  right. split; [done|].
  unfold from_last_dot. destruct (slice_from_rfind "." name) as (r & Hs & Hl); [lia|].
  rewrite Hs. destruct r; [done|]. rewrite len_String in Hl.
  pose proof (len_nonneg r). lia.
Qed.

(** C10. For a file name with more than one dot, the category is the one of
    the part of the name from its last dot on: two such names that end in
    the same last component are classified alike, whatever comes before. *)
Theorem category_by_last_extension :
  (forall file_path,
     let name := PurePath.name (PurePath.Path file_path) in
     (2 <= Str.count "." name)%nat ->
     category_of file_path = classify (from_last_dot name))
  /\ (forall p1 p2,
        let n1 := PurePath.name (PurePath.Path p1) in
        let n2 := PurePath.name (PurePath.Path p2) in
        (2 <= Str.count "." n1)%nat -> (2 <= Str.count "." n2)%nat ->
        from_last_dot n1 = from_last_dot n2 ->
        category_of p1 = category_of p2)
  /\ from_last_dot "archive.tar.gz" = ".gz"
  /\ category_of "/home/u/Downloads/archive.tar.gz" = "compressed"
  /\ category_of "/home/u/Downloads/archive.tar.gz" = category_of "/home/u/Downloads/archive.gz".
Proof.
  assert (forall file_path,
     let name := PurePath.name (PurePath.Path file_path) in
     (2 <= Str.count "." name)%nat ->
     category_of file_path = classify (from_last_dot name)) as Hmain.
  { intros file_path name Hc. unfold category_of, PurePath.suffix. fold name.
    destruct (suffix_several_dots name Hc) as [->|[-> ->]]; reflexivity. }
  split; [exact Hmain|]. split; [|repeat split; reflexivity].
  intros p1 p2 n1 n2 H1 H2 Heq.
  rewrite (Hmain p1 H1), (Hmain p2 H2). fold n1 n2. by rewrite Heq.
Qed.

Lemma category_by_last_extension_witness :
  category_of "/d/a.b.tar.gz" = classify (from_last_dot "a.b.tar.gz")
  /\ category_of "/d/a.tar.gz" = category_of "/d/x.y.gz".
Proof.
  split.
  - apply (proj1 category_by_last_extension "/d/a.b.tar.gz"). vm_compute. lia.
  - apply (proj1 (proj2 category_by_last_extension) "/d/a.tar.gz" "/d/x.y.gz");
      vm_compute; (lia || reflexivity).
Defined.

Lemma classify_total_case_insensitive_witness :
  classify ".Mp3" = classify ".mP3" /\ classify ".TAR" = "compressed"
  /\ classify ".unknown" = "others".
Proof.
  split; [|split].
  - apply (proj1 (proj2 classify_total_case_insensitive)). reflexivity.
  - apply (proj1 (proj2 (proj2 (proj2 classify_total_case_insensitive)))
             ".TAR" "compressed" [".zip"; ".rar"; ".7z"; ".tar"; ".gz"; ".bz2"; ".xz"; ".iso"]).
    + unfold EXTENSIONS. repeat ((by left) || right).
    + simpl. repeat ((by left) || right).
  - apply (proj1 (proj2 (proj2 (proj2 (proj2 classify_total_case_insensitive))))).
    intros cat exts Hin. refine (proj1 (bool_decide_eq_false _) _).
    unfold EXTENSIONS in Hin.
    repeat (apply elem_of_cons in Hin as [Hin|Hin]; [injection Hin as -> ->; reflexivity|]).
    by apply elem_of_nil in Hin.
Defined.

(** ** The registry *)

Lemma dict_get_setitem_eq k v d : dict_get k (dict_setitem k v d) = Some v.
Proof.
  induction d as [|[k' v'] rest IH]; simpl.
  - by rewrite bool_decide_eq_true_2.
  - case_bool_decide as Hk; simpl.
    + by rewrite bool_decide_eq_true_2.
    + by rewrite bool_decide_eq_false_2.
Qed.

Lemma dict_get_setitem_ne k k' v d :
  k <> k' -> dict_get k' (dict_setitem k v d) = dict_get k' d.
Proof.
  intros Hne. induction d as [|[k0 v0] rest IH]; simpl.
  - by rewrite bool_decide_eq_false_2.
  - case_bool_decide as Hk; simpl.
    + subst k0. by rewrite !bool_decide_eq_false_2.
    + by rewrite IH.
Qed.

Lemma dict_get_Some k v d : dict_get k d = Some v -> (k, v) ∈ d.
Proof.
  induction d as [|[k' v'] rest IH]; simpl; [done|].
  case_bool_decide as Hk.
  - intros [= ->]. subst. by left.
  - intros H. right. by apply IH.
Qed.

Lemma dict_get_None k d : dict_get k d = None <-> k ∉ d.*1.
Proof.
  induction d as [|[k' v'] rest IH]; simpl.
  - split; [intros _; apply not_elem_of_nil|done].
  - case_bool_decide as Hk.
    + subst. split; [done|]. intros []. by left.
    + rewrite IH, not_elem_of_cons. naive_solver.
Qed.

Lemma dict_get_elem_of k v d : dict_wf d -> (k, v) ∈ d -> dict_get k d = Some v.
Proof.
  unfold dict_wf. induction d as [|[k' v'] rest IH]; simpl.
  - intros _ Hin. by apply elem_of_nil in Hin.
  - intros [Hk' Hnd]%NoDup_cons [Heq|Hin]%elem_of_cons.
    + injection Heq as -> ->. by rewrite bool_decide_eq_true_2.
    + case_bool_decide as Hk; [|by apply IH].
      subst. destruct Hk'. apply list_elem_of_fmap. by exists (k, v).
Qed.

Lemma dict_setitem_keys k v d :
  (dict_setitem k v d).*1
  = match dict_get k d with Some _ => d.*1 | None => d.*1 ++ [k] end.
Proof.
  induction d as [|[k' v'] rest IH]; [done|]. simpl.
  case_bool_decide as Hk; [by subst|].
  rewrite fmap_cons, IH. by destruct (dict_get k rest).
Qed.

Lemma dict_wf_setitem k v d : dict_wf d -> dict_wf (dict_setitem k v d).
Proof.
  unfold dict_wf. rewrite dict_setitem_keys.
  destruct (dict_get k d) eqn:Hg; [done|].
  intros Hnd. apply NoDup_app. split; [done|]. split; [|apply NoDup_singleton].
  intros x Hx ->%list_elem_of_singleton. by apply dict_get_None in Hg.
Qed.

Lemma dict_wf_filter (P : string * Z -> Prop) `{!forall x, Decision (P x)} d :
  dict_wf d -> dict_wf (filter P d).
Proof.
  unfold dict_wf. induction d as [|kv rest IH]; [done|].
  rewrite fmap_cons, NoDup_cons. intros [Hk Hnd].
  rewrite filter_cons. case_decide; [|by apply IH].
  rewrite fmap_cons, NoDup_cons. split; [|by apply IH].
  intros (kv' & Hfst & Hin%list_elem_of_filter)%list_elem_of_fmap.
  apply Hk. apply list_elem_of_fmap. exists kv'. naive_solver.
Qed.

Lemma dict_get_filter_keys k (ps : list string) d :
  dict_get k (filter (fun kv => kv.1 ∉ ps) d)
  = if decide (k ∈ ps) then None else dict_get k d.
Proof.
  induction d as [|[k' v'] rest IH]; simpl.
  - by case_decide.
  - rewrite filter_cons. simpl. destruct (decide (k' ∉ ps)) as [Hk'|Hk']; simpl.
    + case_bool_decide as Hk; [subst; by rewrite decide_False|].
      rewrite IH. done.
    + rewrite IH. case_decide; [done|].
      rewrite bool_decide_eq_false_2; [done|]. intros ->. tauto.
Qed.

Lemma filter_all {A} (P : A -> Prop) `{!forall x, Decision (P x)} (l : list A) :
  Forall P l -> filter P l = l.
Proof.
  induction 1 as [|x l Hx _ IH]; [done|].
  by rewrite filter_cons_True, IH.
Qed.

Lemma dict_delitem_wf k d :
  dict_wf d -> k ∈ d.*1 ->
  dict_delitem k d = Ok (filter (fun kv => kv.1 <> k) d).
Proof.
  unfold dict_wf. induction d as [|[k' v'] rest IH]; simpl.
  - intros _ Hin. by apply elem_of_nil in Hin.
  - intros [Hk' Hnd]%NoDup_cons Hin. rewrite filter_cons. simpl.
    case_bool_decide as Hk.
    + subst. rewrite decide_False by tauto. f_equal.
      symmetry. apply filter_all. apply Forall_forall. intros [k0 v0] Hin0; simpl; intros ->.
      apply Hk'. apply list_elem_of_fmap. by exists (k, v0).
    + rewrite decide_True by done. apply elem_of_cons in Hin as [->|Hin]; [done|].
      by rewrite IH.
Qed.

Lemma elem_of_due now p d :
  p ∈ due now d <-> exists t, (p, t) ∈ d /\ now - t >= timedelta_hours 24.
Proof.
  unfold due. rewrite list_elem_of_fmap. split.
  - intros ([k t] & -> & [Hst Hin]%list_elem_of_filter). by exists t.
  - intros (t & Hin & Hst). exists (p, t). split; [done|].
    by apply list_elem_of_filter.
Qed.

Lemma due_sub_keys now d : due now d ⊆ d.*1.
Proof.
  intros p (t & Hin & _)%elem_of_due. apply list_elem_of_fmap. by exists (p, t).
Qed.

Lemma NoDup_due now d : dict_wf d -> NoDup (due now d).
Proof. intros Hwf. unfold due. by apply dict_wf_filter. Qed.

Lemma due_app now d1 d2 : due now (d1 ++ d2) = due now d1 ++ due now d2.
Proof. unfold due. by rewrite filter_app, fmap_app. Qed.

Lemma due_split now p t d :
  dict_wf d -> (p, t) ∈ d -> now - t >= timedelta_hours 24 ->
  exists before after,
    due now d = before ++ p :: after /\ (p ∉ before) /\ (p ∉ after).
Proof.
  intros Hwf Hin Hst.
  assert (p ∈ due now d) as Hp by (apply elem_of_due; eauto).
  apply list_elem_of_split in Hp as (before & after & Heq).
  exists before, after. split; [done|].
  pose proof (NoDup_due now d Hwf) as Hnd. rewrite Heq in Hnd.
  apply NoDup_app in Hnd as (_ & Hdis & [Hp _]%NoDup_cons).
  split; [|done]. intros Hb. apply (Hdis _ Hb). by left.
Qed.

(** ** Methods as state transformers *)

Lemma organize_file_ok p s : (organize_file p s).1 = Ok tt.
Proof.
  unfold organize_file, try_except.
  destruct (organize_body p s) as [[[]|e] s']; reflexivity.
Qed.

Lemma organize_body_pending p s :
  pending_files (organize_body p s).2 = pending_files s
  /\ downloads_path (organize_body p s).2 = downloads_path s.
Proof.
  unfold organize_body, mbind, M_bind, get, syscall, logging_info, modify. simpl.
  destruct (Path_exists _ _); simpl; [|done].
  destruct (Path_mkdir_exist_ok _ _); simpl; [|done].
  destruct (shutil_move _ _ _); simpl; done.
Qed.

Lemma organize_file_pending p s :
  pending_files (organize_file p s).2 = pending_files s
  /\ downloads_path (organize_file p s).2 = downloads_path s.
Proof.
  unfold organize_file, try_except.
  pose proof (organize_body_pending p s) as Hb.
  destruct (organize_body p s) as [[[]|e] s']; simpl in *; done.
Qed.

Lemma organize_all_pending ps s :
  pending_files (organize_all ps s) = pending_files s
  /\ downloads_path (organize_all ps s) = downloads_path s.
Proof.
  revert s. induction ps as [|p ps IH]; intros s; simpl; [done|].
  destruct (IH (organize_file p s).2) as [-> ->]. apply organize_file_pending.
Qed.

Lemma organize_all_app ps qs s :
  organize_all (ps ++ qs) s = organize_all qs (organize_all ps s).
Proof. unfold organize_all. apply foldl_app. Qed.

(** The first loop calls [organize_file] on the due entries, in order, and
    collects them. *)
Lemma sweep_loop_spec now items acc s :
  sweep_loop now items acc s
  = (Ok (acc ++ due now items), organize_all (due now items) s).
Proof.
  revert acc s. induction items as [|[p t] rest IH]; intros acc s; simpl.
  - unfold mret, M_ret. by rewrite app_nil_r.
  - unfold due. rewrite filter_cons. simpl. case_bool_decide as Hst.
    + rewrite decide_True by done. simpl. unfold mbind, M_bind.
      pose proof (organize_file_ok p s) as Hok.
      destruct (organize_file p s) as [r s1]; simpl in *. subst r.
      rewrite IH. by rewrite <- app_assoc.
    + rewrite decide_False by done. apply IH.
Qed.

Lemma files_to_remove_due now s : files_to_remove now s = due now (pending_files s).
Proof. unfold files_to_remove. by rewrite sweep_loop_spec. Qed.

(** The second loop removes exactly the collected keys. *)
Lemma for_each_del_pending ps s :
  dict_wf (pending_files s) -> NoDup ps -> ps ⊆ (pending_files s).*1 ->
  for_each ps del_pending s
  = (Ok tt, set_pending_files (filter (fun kv => kv.1 ∉ ps) (pending_files s)) s).
Proof.
  revert s. induction ps as [|p ps IH]; intros s Hwf Hnd Hsub; simpl.
  - unfold mret, M_ret. f_equal. destruct s; unfold set_pending_files; simpl. f_equal.
    symmetry. apply filter_all, Forall_forall. intros ? _. apply not_elem_of_nil.
  - apply NoDup_cons in Hnd as [Hp Hnd].
    unfold mbind, M_bind, del_pending at 1.
    rewrite dict_delitem_wf; [|done|apply Hsub; by left].
    rewrite IH; simpl.
    + f_equal. unfold set_pending_files; simpl. f_equal.
      rewrite list_filter_filter. apply list_filter_iff.
      intros [k v]; simpl. rewrite not_elem_of_cons. tauto.
    + by apply dict_wf_filter.
    + done.
    + intros q Hq. assert (q ∈ (pending_files s).*1) as Hq' by (apply Hsub; by right).
      apply list_elem_of_fmap in Hq' as ([k v] & -> & Hin).
      apply list_elem_of_fmap. exists (k, v). split; [done|].
      apply list_elem_of_filter. split; [|done]. simpl. by intros ->.
Qed.

(** A sweep returns, having called [organize_file] on the due entries and
    removed them from the registry. *)
Lemma process_pending_files_spec now s :
  dict_wf (pending_files s) ->
  process_pending_files now s
  = (Ok tt,
     set_pending_files
       (filter (fun kv => kv.1 ∉ due now (pending_files s)) (pending_files s))
       (organize_all (due now (pending_files s)) s)).
Proof.
  intros Hwf. unfold process_pending_files, mbind, M_bind, get.
  rewrite sweep_loop_spec. simpl.
  destruct (organize_all_pending (due now (pending_files s)) s) as [Hp Hd].
  rewrite for_each_del_pending; rewrite ?Hp; try done.
  - by apply NoDup_due.
  - apply due_sub_keys.
Qed.

(** ** Parsed paths *)

Lemma split_no_sep sep s : Forall (fun x => Str.count sep x = 0%nat) (Str.split sep s).
Proof.
  induction s as [|a s IH]; simpl.
  - by constructor.
  - case_bool_decide as Ha.
    + by constructor.
    + destruct (Str.split sep s) as [|x xs]; [by repeat constructor; simpl; rewrite bool_decide_eq_false_2|].
      apply Forall_cons in IH as [Hx Hxs]. constructor; [|done].
      simpl. by rewrite bool_decide_eq_false_2.
Qed.

Lemma split_id sep s : Str.count sep s = 0%nat -> Str.split sep s = [s].
Proof.
  induction s as [|a s IH]; simpl; [done|].
  case_bool_decide as Ha; [done|]. intros Hc. by rewrite IH.
Qed.

Lemma split_app_sep sep x s :
  Str.count sep x = 0%nat ->
  Str.split sep (x +:+ String sep s) = x :: Str.split sep s.
Proof.
  induction x as [|a x IH]; simpl.
  - intros _. rewrite ?append_empty. simpl. by rewrite bool_decide_eq_true_2.
  - case_bool_decide as Ha; [done|]. intros Hc. rewrite ?append_String. simpl.
    rewrite ?bool_decide_eq_false_2 by done. by rewrite IH.
Qed.

Lemma split_join parts :
  parts <> [] -> Forall (fun x => Str.count "/" x = 0%nat) parts ->
  Str.split "/" (Str.join "/" parts) = parts.
Proof.
  induction parts as [|x rest IH]; [done|]. intros _ [Hx Hrest]%Forall_cons.
  destruct rest as [|y rest]; simpl.
  - by apply split_id.
  - change ("/" +:+ ?t) with (String "/" t).
    rewrite split_app_sep by done. f_equal. by apply IH.
Qed.

Lemma components_join parts :
  Forall component parts -> PurePath.components (Str.join "/" parts) = parts.
Proof.
  intros Hc. unfold PurePath.components. destruct parts as [|x rest]; [done|].
  rewrite split_join; [|done|].
  - apply filter_all. eapply Forall_impl; [done|]. intros c (? & ? & _). done.
  - eapply Forall_impl; [done|]. by intros c (_ & _ & ?).
Qed.

Lemma lstrip_component_join parts :
  Forall component parts -> Str.lstrip "/" (Str.join "/" parts) = Str.join "/" parts.
Proof.
  destruct parts as [|x rest]; [done|]. intros [(Hne & _ & Hc) _]%Forall_cons.
  destruct x as [|a x]; [done|]. simpl in Hc.
  case_bool_decide as Ha; [done|].
  destruct rest; simpl; [|rewrite append_String; simpl]; by rewrite bool_decide_eq_false_2.
Qed.

Lemma join_component_nonempty x rest : component x -> Str.join "/" (x :: rest) <> "".
Proof.
  intros (Hne & _). destruct x as [|a x]; [done|]. by destruct rest.
Qed.

Lemma join_component_head x rest :
  component x -> exists a r, Str.join "/" (x :: rest) = String a r /\ a <> "/"%char.
Proof.
  intros (Hne & _ & Hc). destruct x as [|a x]; [done|]. simpl in Hc.
  case_bool_decide as Ha; [done|]. destruct rest; simpl; eauto.
Qed.

(** Parsing what [str] prints gives the path back. *)
Lemma Path_str p : path_wf p -> PurePath.Path (PurePath.str p) = p.
Proof.
  destruct p as [r tl]. intros [Hr Hc]; simpl in *.
  unfold PurePath.str; simpl.
  repeat (apply elem_of_cons in Hr as [->|Hr]); [..|by apply elem_of_nil in Hr].
  - rewrite append_empty. destruct tl as [|x rest].
    + reflexivity.
    + apply Forall_cons in Hc as Hc'. destruct Hc' as [Hx _].
      rewrite bool_decide_eq_false_2 by by apply join_component_nonempty.
      destruct (join_component_head x rest Hx) as (a & s & Hj & Ha).
      unfold PurePath.Path, PurePath.splitroot. rewrite Hj.
      assert ((let '(r, rel) :=
                 match String a s with
                 | String "/" _ =>
                     if bool_decide (Str.len (String a s) - Str.len (Str.lstrip "/" (String a s)) = 2)
                     then ("//", Str.lstrip "/" (String a s))
                     else ("/", Str.lstrip "/" (String a s))
                 | _ => ("", String a s)
                 end in PurePath.mk r (PurePath.components rel))
              = PurePath.mk "" (PurePath.components (String a s))) as ->.
      { destruct a as [[] [] [] [] [] [] [] []]; try reflexivity. done. }
      by rewrite <- Hj, components_join.
  - change ("/" +:+ ?t) with (String "/" t). rewrite bool_decide_eq_false_2 by done.
    unfold PurePath.Path, PurePath.splitroot.
    change (Str.lstrip "/" (String "/" ?t)) with (Str.lstrip "/" t).
    rewrite lstrip_component_join by done. rewrite len_String.
    rewrite bool_decide_eq_false_2 by lia. by rewrite components_join.
  - change ("//" +:+ ?t) with (String "/" (String "/" t)).
    rewrite bool_decide_eq_false_2 by done.
    unfold PurePath.Path, PurePath.splitroot.
    change (Str.lstrip "/" (String "/" (String "/" ?t))) with (Str.lstrip "/" t).
    rewrite lstrip_component_join by done. rewrite !len_String.
    rewrite bool_decide_eq_true_2 by lia. by rewrite components_join.
Qed.

Lemma components_wf rel : Forall component (PurePath.components rel).
Proof.
  unfold PurePath.components. apply Forall_forall. intros c [[? ?] Hin]%list_elem_of_filter.
  repeat split; [done..|].
  pose proof (split_no_sep "/" rel) as Hs. rewrite Forall_forall in Hs. by apply Hs.
Qed.

Lemma Path_wf a : path_wf (PurePath.Path a).
Proof.
  unfold PurePath.Path, PurePath.splitroot.
  destruct a as [|c a].
  { split; simpl; [by left|apply components_wf]. }
  destruct (decide (c = "/"%char)) as [->|Hc].
  - case_bool_decide; (split; simpl; [|apply components_wf]).
    + right. right. by left.
    + right. by left.
  - assert (match c with
            | "/"%char => if bool_decide (Str.len (String c a) - Str.len (Str.lstrip "/" (String c a)) = 2)
                          then ("//", Str.lstrip "/" (String c a))
                          else ("/", Str.lstrip "/" (String c a))
            | _ => ("", String c a)
            end = ("", String c a)) as Heq.
    { destruct c as [[] [] [] [] [] [] [] []]; try reflexivity. done. }
    change (path_wf (let '(r, rel) :=
       match c with
       | "/"%char => if bool_decide (Str.len (String c a) - Str.len (Str.lstrip "/" (String c a)) = 2)
                     then ("//", Str.lstrip "/" (String c a))
                     else ("/", Str.lstrip "/" (String c a))
       | _ => ("", String c a)
       end in PurePath.mk r (PurePath.components rel))).
    rewrite Heq. split; simpl; [by left|apply components_wf].
Qed.

Lemma Path_component c : component c -> PurePath.Path c = PurePath.mk "" [c].
Proof.
  intros Hc. rewrite <- (Path_str (PurePath.mk "" [c])) at 1.
  - unfold PurePath.str. simpl. rewrite append_empty.
    rewrite bool_decide_eq_false_2; [done|]. by destruct Hc.
  - split; simpl; [by left|]. by apply Forall_cons.
Qed.

Lemma truediv_wf p key : path_wf p -> path_wf (p // key).
Proof.
  intros [Hr Hc]. unfold PurePath.truediv. pose proof (Path_wf key) as [Hr' Hc'].
  case_bool_decide; [|done]. split; simpl; [done|]. by apply Forall_app.
Qed.

Lemma truediv_component p c :
  component c -> p // c = PurePath.mk (PurePath.root p) (PurePath.tail p ++ [c]).
Proof. intros Hc. unfold PurePath.truediv. by rewrite Path_component. Qed.

Lemma truediv_empty p : p // "" = p.
Proof. unfold PurePath.truediv. simpl. rewrite app_nil_r. by destruct p. Qed.

Lemma name_component p :
  path_wf p -> PurePath.tail p <> [] -> component (PurePath.name p).
Proof.
  intros [_ Hc] Hne. unfold PurePath.name.
  destruct (exists_last Hne) as (l & c & Heq). rewrite Heq in *.
  rewrite last_last. apply Forall_app in Hc as [_ Hc]. by apply Forall_cons in Hc as [? _].
Qed.

Lemma name_empty p : PurePath.tail p = [] -> PurePath.name p = "".
Proof. unfold PurePath.name. by intros ->. Qed.

Lemma parent_truediv p c : component c -> PurePath.parent (p // c) = p.
Proof.
  intros Hc. rewrite truediv_component by done. unfold PurePath.parent. simpl.
  rewrite removelast_last. by destruct p.
Qed.

(** The directory of [d / c], as the system resolves it, is [d]. *)
Lemma dirname_truediv p c :
  path_wf p -> component c -> Posix.dirname (PurePath.str (p // c)) = PurePath.str p.
Proof.
  intros Hp Hc. unfold Posix.dirname.
  rewrite Path_str by by apply truediv_wf. by rewrite parent_truediv.
Qed.

Lemma classify_component s : component (classify s).
Proof.
  pose proof (classify_is_category s) as Hin. unfold EXTENSIONS in Hin.
  rewrite !fmap_cons in Hin. simpl in Hin.
  repeat (apply elem_of_cons in Hin as [->|Hin]); try (by apply elem_of_nil in Hin);
    by repeat split.
Qed.

(** ** Notifications and the startup scan *)

Lemma on_created_file ev now s :
  is_directory ev = false ->
  on_created ev now s
  = (Ok tt,
     add_log (INFO ("New file detected: " +:+ os_path_basename (src_path ev)))
       (set_pending_files (dict_setitem (src_path ev) now (pending_files s)) s)).
Proof. intros Hd. unfold on_created. by rewrite Hd. Qed.

Lemma on_created_directory ev now s :
  is_directory ev = true -> on_created ev now s = (Ok tt, s).
Proof. intros Hd. unfold on_created. by rewrite Hd. Qed.

Lemma on_created_wf ev now s :
  dict_wf (pending_files s) -> dict_wf (pending_files (on_created ev now s).2).
Proof.
  intros Hwf. destruct (is_directory ev) eqn:Hd.
  - by rewrite on_created_directory.
  - rewrite on_created_file by done. simpl. by apply dict_wf_setitem.
Qed.

(** The value the scan writes for a key: the [st_ctime] found there. *)
Lemma add_existing_file_spec p s :
  add_existing_file p s
  = (Ok tt,
     match fs s !! PurePath.str p with
     | Some (File c d) =>
         add_log (INFO ("Added existing file to queue: " +:+ PurePath.name p))
           (set_pending_files (dict_setitem (PurePath.str p) c (pending_files s)) s)
     | _ => s
     end).
Proof.
  unfold add_existing_file, mbind, M_bind, get, lift, Path_is_file, Posix.isfile, Path_stat.
  simpl. destruct (fs s !! PurePath.str p) as [[c d|]|]; reflexivity.
Qed.

Lemma scan_loop_spec paths s :
  exists s',
    for_each paths add_existing_file s = (Ok tt, s')
    /\ fs s' = fs s /\ downloads_path s' = downloads_path s
    /\ (dict_wf (pending_files s) -> dict_wf (pending_files s'))
    /\ forall k,
         dict_get k (pending_files s')
         = match fs s !! k with
           | Some (File c d) =>
               if decide (k ∈ PurePath.str <$> paths) then Some c
               else dict_get k (pending_files s)
           | _ => dict_get k (pending_files s)
           end.
Proof.
  revert s. induction paths as [|p paths IH]; intros s; simpl.
  - exists s. repeat split; [done|]. intros k.
    by destruct (fs s !! k) as [[c d|]|].
  - unfold mbind, M_bind. rewrite add_existing_file_spec.
    destruct (fs s !! PurePath.str p) as [[c d|]|] eqn:Hp.
    + destruct (IH (add_log (INFO ("Added existing file to queue: " +:+ PurePath.name p))
           (set_pending_files (dict_setitem (PurePath.str p) c (pending_files s)) s)))
        as (s' & -> & Hfs & Hdp & Hwf & Hget); simpl in *.
      exists s'. repeat split; [done..| |].
      * intros Hw. by apply Hwf, dict_wf_setitem.
      * intros k. rewrite Hget. destruct (fs s !! k) as [[c' d'|]|] eqn:Hk.
        -- destruct (decide (PurePath.str p = k)) as [<-|Hne].
           ++ rewrite dict_get_setitem_eq. rewrite Hp in Hk. injection Hk as -> ->.
              rewrite (decide_True (P := _ ∈ _ :: _)) by by left. by case_decide.
           ++ rewrite dict_get_setitem_ne by done.
              apply decide_ext. rewrite elem_of_cons. naive_solver.
        -- destruct (decide (PurePath.str p = k)) as [<-|Hne]; [congruence|].
           by rewrite dict_get_setitem_ne.
        -- destruct (decide (PurePath.str p = k)) as [<-|Hne]; [congruence|].
           by rewrite dict_get_setitem_ne.
    + destruct (IH s) as (s' & -> & Hfs & Hdp & Hwf & Hget).
      exists s'. repeat split; [done..|]. intros k. rewrite Hget.
      destruct (fs s !! k) as [[c' d'|]|] eqn:Hk; [|done..].
      apply decide_ext. rewrite elem_of_cons.
      split; [by right|]. intros [->|?]; [congruence|done].
    + destruct (IH s) as (s' & -> & Hfs & Hdp & Hwf & Hget).
      exists s'. repeat split; [done..|]. intros k. rewrite Hget.
      destruct (fs s !! k) as [[c' d'|]|] eqn:Hk; [|done..].
      apply decide_ext. rewrite elem_of_cons.
      split; [by right|]. intros [->|?]; [congruence|done].
Qed.

Lemma process_existing_files_spec s :
  exists s',
    process_existing_files s = (Ok tt, s')
    /\ fs s' = fs s /\ downloads_path s' = downloads_path s
    /\ (dict_wf (pending_files s) -> dict_wf (pending_files s'))
    /\ forall k,
         dict_get k (pending_files s')
         = match fs s !! k with
           | Some (File c d) =>
               if decide (k ∈ PurePath.str <$>
                                Path_glob_star (fs s) (PurePath.Path (downloads_path s)))
               then Some c
               else dict_get k (pending_files s)
           | _ => dict_get k (pending_files s)
           end.
Proof.
  unfold process_existing_files, mbind, M_bind, logging_info, modify, get. simpl.
  destruct (scan_loop_spec
              (Path_glob_star (fs s) (PurePath.Path (downloads_path s)))
              (add_log (INFO "Processing existing files...") s))
    as (s' & Hrun & Hfs & Hdp & Hwf & Hget).
  exists s'. simpl in *. repeat split; done.
Qed.

Lemma init_spec dp f l :
  exists s,
    init dp f l = (Ok tt, s)
    /\ fs s = f /\ downloads_path s = dp /\ dict_wf (pending_files s)
    /\ forall k,
         dict_get k (pending_files s)
         = match f !! k with
           | Some (File c d) =>
               if decide (k ∈ PurePath.str <$> Path_glob_star f (PurePath.Path dp))
               then Some c else None
           | _ => None
           end.
Proof.
  unfold init, mbind, M_bind, logging_info, modify. simpl.
  destruct (process_existing_files_spec
              (add_log (INFO ("Organizer started. Monitoring: " +:+ dp)) (mkState dp [] f l)))
    as (s' & Hrun & Hfs & Hdp & Hwf & Hget).
  exists s'. simpl in *. repeat split; [done..| |done].
  apply Hwf. apply NoDup_nil_2.
Qed.

(** In every state an organizer goes through, the keys of the registry are
    pairwise distinct. *)
Lemma reachable_wf s : reachable s -> dict_wf (pending_files s).
Proof.
  induction 1 as [dp f l s Hinit|s ev now s' _ IH Hev|s now s' _ IH Hsw|s f l _ IH].
  - destruct (init_spec dp f l) as (s0 & Hrun & _ & _ & Hwf & _). congruence.
  - pose proof (on_created_wf ev now s IH) as Hwf. by rewrite Hev in Hwf.
  - rewrite process_pending_files_spec in Hsw by done. injection Hsw as <-. simpl.
    by apply dict_wf_filter.
  - done.
Qed.

(** ** C1: the grace period *)

Lemma reachable_init dp f l : reachable (init dp f l).2.
Proof.
  destruct (init_spec dp f l) as (s & Hrun & _). rewrite Hrun. simpl.
  by eapply reach_init.
Qed.

Lemma due_young now p t d :
  dict_wf d -> dict_get p d = Some t -> now - t < timedelta_hours 24 -> p ∉ due now d.
Proof.
  intros Hwf Hg Hy (t' & Hin & Hst)%elem_of_due.
  apply (dict_get_elem_of _ _ _ Hwf) in Hin. rewrite Hg in Hin. injection Hin as ->. lia.
Qed.

(** An iteration of a sweep that runs alongside the handler adds to its
    list only a path whose timestamp, as recorded at that moment, is at
    least 24 hours old. *)
Lemma sweep_step_calls_due sw s q :
  dict_wf (pending_files s) ->
  q ∈ sw_files_to_remove (sweep_step sw s).1 ->
  q ∈ sw_files_to_remove sw
  \/ exists tq, dict_get q (pending_files s) = Some tq
                /\ sw_current_time sw - tq >= timedelta_hours 24.
Proof.
  intros Hwf. unfold sweep_step.
  destruct (sw_phase sw) as [|[|p rest]| |e]; simpl; try by left.
  - case_bool_decide; [by left|].
    destruct (pending_files s !! di_pos sw) as [[p c]|] eqn:Hlook; [|by left].
    case_bool_decide as Hst; [|by left].
    destruct (organize_file p s) as [[[]|e] s']; simpl; [|by left].
    intros [Hq| ->%list_elem_of_singleton]%elem_of_app; [by left|].
    right. exists c. split; [|done].
    apply dict_get_elem_of; [done|]. by eapply list_elem_of_lookup_2.
  - destruct (del_pending p s) as [[[]|e] s']; by left.
Qed.

(** C1. In every state an organizer goes through, a sweep does not call
    [organize_file] on an entry younger than 24 hours and leaves it in the
    registry with its timestamp; every entry it does call [organize_file]
    on is recorded with a timestamp at least 24 hours old, also when the
    sweep is run iteration by iteration alongside the handler; and what the
    sweep does to the files and the log is what these calls do. *)
Theorem sweep_spares_young s now p t :
  reachable s ->
  dict_get p (pending_files s) = Some t ->
  now - t < timedelta_hours 24 ->
  (p ∉ files_to_remove now s)
  /\ (forall q, q ∈ files_to_remove now s ->
        exists tq, dict_get q (pending_files s) = Some tq
                   /\ now - tq >= timedelta_hours 24)
  /\ (forall sw q,
        q ∈ sw_files_to_remove (sweep_step sw s).1 ->
        q ∈ sw_files_to_remove sw
        \/ exists tq, dict_get q (pending_files s) = Some tq
                      /\ sw_current_time sw - tq >= timedelta_hours 24)
  /\ exists s',
       process_pending_files now s = (Ok tt, s')
       /\ dict_get p (pending_files s') = Some t
       /\ fs s' = fs (organize_all (files_to_remove now s) s)
       /\ log s' = log (organize_all (files_to_remove now s) s).
Proof.
  intros Hwf%reachable_wf Hg Hy. rewrite files_to_remove_due.
  pose proof (due_young now p t _ Hwf Hg Hy) as Hnot.
  split; [done|]. split; [|split].
  - intros q (tq & Hin & Hst)%elem_of_due. exists tq. split; [|done].
    by apply dict_get_elem_of.
  - intros sw q. by apply sweep_step_calls_due.
  - eexists. split; [by apply process_pending_files_spec|]. simpl.
    split; [|done]. rewrite dict_get_filter_keys. by rewrite decide_False.
Qed.

Lemma sweep_spares_young_witness :
  ("/d/photo.png" ∉ files_to_remove (Scenario.hour 25) (Scenario.started Scenario.home))
  /\ "/d/report.PDF" ∈ files_to_remove (Scenario.hour 25) (Scenario.started Scenario.home).
Proof.
  split.
  - apply (sweep_spares_young (Scenario.started Scenario.home) (Scenario.hour 25)
             "/d/photo.png" (Scenario.hour 24)).
    + apply reachable_init.
    + vm_compute. reflexivity.
    + vm_compute. reflexivity.
  - vm_compute. by left.
Defined.

(** ** C2: a second insertion *)

(** C2, as stated, fails: a second notification for a pending path replaces
    the timestamp the first one recorded. *)
Lemma insertion_not_idempotent_counterexample :
  ~ (forall s ev now t,
       reachable s ->
       dict_get (src_path ev) (pending_files s) = Some t ->
       dict_get (src_path ev) (pending_files (on_created ev now s).2) = Some t).
Proof.
  intros Hclaim.
  specialize (Hclaim (Scenario.started Scenario.home) (Scenario.created "/d/photo.png")
                (Scenario.hour 30) (Scenario.hour 24) (reachable_init _ _ _)).
  vm_compute in Hclaim. specialize (Hclaim eq_refl). discriminate.
Qed.

Lemma glob_member f dp k n x :
  Path_is_dir f (PurePath.Path dp) = true ->
  child_name (PurePath.Path dp) k = Some n ->
  f !! k = Some x ->
  k ∈ PurePath.str <$> Path_glob_star f (PurePath.Path dp).
Proof.
  intros Hdir Hchild Hk. unfold Path_glob_star. rewrite Hdir.
  apply list_elem_of_fmap. exists (PurePath.Path dp // n).
  unfold child_name in Hchild.
  destruct (bool_decide (PurePath.str (PurePath.Path k) = k)
            && bool_decide (PurePath.root (PurePath.Path k) = PurePath.root (PurePath.Path dp))
            && bool_decide (PurePath.tail (PurePath.Path k)
                            = PurePath.tail (PurePath.Path dp) ++ [PurePath.name (PurePath.Path k)]))
    eqn:Hcond; [|done].
  injection Hchild as <-.
  apply andb_prop in Hcond as [[Hstr Hroot]%andb_prop Htail].
  apply bool_decide_eq_true_1 in Hstr, Hroot, Htail.
  assert (component (PurePath.name (PurePath.Path k))) as Hc.
  { apply name_component; [apply Path_wf|]. rewrite Htail.
    intros Hnil. by apply app_eq_nil in Hnil as [_ ?]. }
  split.
  - rewrite truediv_component by done. rewrite <- Hroot, <- Htail.
    by destruct (PurePath.Path k).
  - apply list_elem_of_fmap. exists (PurePath.name (PurePath.Path k)). split; [done|].
    unfold scandir. apply list_elem_of_omap. exists (k, x). split.
    + by apply elem_of_map_to_list.
    + simpl. unfold child_name. by rewrite Hstr, Hroot, <- Htail, !bool_decide_eq_true_2.
Qed.

(** C2, amended. In every state an organizer goes through, a notification
    for a path that is pending keeps the path once in the registry, at its
    place, and leaves the other entries alone, but replaces its timestamp
    by the time of the notification; and a startup scan that finds a pending
    path as a regular file of the watched directory replaces its timestamp
    by the [st_ctime] of the file. *)
Theorem insertion_overwrites s ev now t :
  reachable s ->
  is_directory ev = false ->
  dict_get (src_path ev) (pending_files s) = Some t ->
  (exists s',
     on_created ev now s = (Ok tt, s')
     /\ dict_get (src_path ev) (pending_files s') = Some now
     /\ (pending_files s').*1 = (pending_files s).*1
     /\ dict_wf (pending_files s')
     /\ forall q, q <> src_path ev ->
          dict_get q (pending_files s') = dict_get q (pending_files s))
  /\ (forall n c d,
        Path_is_dir (fs s) (PurePath.Path (downloads_path s)) = true ->
        child_name (PurePath.Path (downloads_path s)) (src_path ev) = Some n ->
        fs s !! src_path ev = Some (File c d) ->
        exists s',
          process_existing_files s = (Ok tt, s')
          /\ dict_get (src_path ev) (pending_files s') = Some c
          /\ dict_wf (pending_files s')).
Proof.
  intros Hwf%reachable_wf Hfile Hg. split.
  - eexists. split; [by apply on_created_file|]. simpl.
    split; [apply dict_get_setitem_eq|].
    split; [by rewrite dict_setitem_keys, Hg|].
    split; [by apply dict_wf_setitem|].
    intros q Hq. by apply dict_get_setitem_ne.
  - intros n c d Hdir Hchild Hk.
    destruct (process_existing_files_spec s) as (s' & Hrun & _ & _ & Hwf' & Hget).
    exists s'. split; [done|]. split; [|by apply Hwf'].
    rewrite Hget, Hk. rewrite decide_True; [done|]. by eapply glob_member.
Qed.

Lemma insertion_overwrites_witness :
  exists s',
    on_created (Scenario.created "/d/photo.png") (Scenario.hour 30)
      (Scenario.started Scenario.home) = (Ok tt, s')
    /\ dict_get "/d/photo.png" (pending_files s') = Some (Scenario.hour 30)
    /\ (pending_files s').*1 = (pending_files (Scenario.started Scenario.home)).*1
    /\ dict_wf (pending_files s')
    /\ forall q, q <> "/d/photo.png" ->
         dict_get q (pending_files s')
         = dict_get q (pending_files (Scenario.started Scenario.home)).
Proof.
  apply (insertion_overwrites (Scenario.started Scenario.home)
           (Scenario.created "/d/photo.png") (Scenario.hour 30) (Scenario.hour 24)).
  - apply reachable_init.
  - reflexivity.
  - vm_compute. reflexivity.
Defined.

(** ** C5: the startup scan *)

(** C5. The constructor returns with every regular file directly under the
    watched directory in the registry, under the path [glob] gives it and
    with its [st_ctime] as timestamp; so a sweep run at any time at which
    the file is at least 24 hours old on disk, the first one included, calls
    [organize_file] on it and takes it out of the registry. *)
Theorem startup_scan_keeps_age dp f l k n c d :
  Path_is_dir f (PurePath.Path dp) = true ->
  child_name (PurePath.Path dp) k = Some n ->
  f !! k = Some (File c d) ->
  exists s,
    init dp f l = (Ok tt, s)
    /\ fs s = f
    /\ dict_get k (pending_files s) = Some c
    /\ forall now,
         now - c >= timedelta_hours 24 ->
         k ∈ files_to_remove now s
         /\ exists s',
              process_pending_files now s = (Ok tt, s')
              /\ dict_get k (pending_files s') = None.
Proof.
  intros Hdir Hchild Hk.
  destruct (init_spec dp f l) as (s & Hrun & Hfs & _ & Hwf & Hget).
  exists s. split; [done|]. split; [done|].
  assert (dict_get k (pending_files s) = Some c) as Hg.
  { rewrite Hget, Hk. rewrite decide_True; [done|]. by eapply glob_member. }
  split; [done|]. intros now Hold.
  assert (k ∈ due now (pending_files s)) as Hdue.
  { apply elem_of_due. exists c. split; [|done]. by apply dict_get_Some. }
  rewrite files_to_remove_due. split; [done|].
  eexists. split; [by apply process_pending_files_spec|]. simpl.
  rewrite dict_get_filter_keys. by rewrite decide_True.
Qed.

Lemma startup_scan_keeps_age_witness :
  exists s,
    init "/d" Scenario.home [] = (Ok tt, s)
    /\ fs s = Scenario.home
    /\ dict_get "/d/report.PDF" (pending_files s) = Some 0
    /\ forall now,
         now - 0 >= timedelta_hours 24 ->
         "/d/report.PDF" ∈ files_to_remove now s
         /\ exists s',
              process_pending_files now s = (Ok tt, s')
              /\ dict_get "/d/report.PDF" (pending_files s') = None.
Proof.
  apply (startup_scan_keeps_age "/d" Scenario.home [] "/d/report.PDF" "report.PDF"
           0 "%PDF-1.7").
  - vm_compute. reflexivity.
  - vm_compute. reflexivity.
  - vm_compute. reflexivity.
Defined.

(** ** The mover *)

Lemma organize_body_unfold p s :
  organize_body p s
  = if negb (Path_exists (fs s) (PurePath.Path p)) then (Ok tt, s)
    else match Path_mkdir_exist_ok (fs s) (dest_folder s p) with
         | Raise e => (Raise e, s)
         | Ok f1 =>
             match shutil_move f1 (PurePath.str (PurePath.Path p)) (destination s p) with
             | Raise e => (Raise e, set_fs f1 s)
             | Ok f2 => (Ok tt, add_log (organized_record p) (set_fs f2 s))
             end
         end.
Proof.
  unfold organize_body, destination, dest_folder, organized_record, category_of.
  unfold mbind, M_bind, get, syscall, logging_info, modify, set_fs, add_log.
  cbn [fs downloads_path pending_files log].
  destruct (Path_exists (fs s) (PurePath.Path p)); cbn [negb]; [|reflexivity].
  destruct (Path_mkdir_exist_ok (fs s) _); [|reflexivity].
  cbn [fs downloads_path pending_files log].
  destruct (shutil_move _ _ _); reflexivity.
Qed.

Lemma organize_file_unfold p s :
  organize_file p s
  = match organize_body p s with
    | (Ok a, s') => (Ok a, s')
    | (Raise e, s') => (Ok tt, add_log (error_record p e) s')
    end.
Proof. reflexivity. Qed.

Lemma organize_file_missing p s :
  Path_exists (fs s) (PurePath.Path p) = false ->
  organize_body p s = (Ok tt, s) /\ organize_file p s = (Ok tt, s).
Proof.
  intros Hex. rewrite organize_file_unfold, organize_body_unfold, Hex. done.
Qed.



Lemma mkdir_exist_ok_inv f D f1 :
  Path_mkdir_exist_ok f D = Ok f1 ->
  (f1 = f /\ f !! PurePath.str D = Some Dir)
  \/ (f !! PurePath.str D = None /\ f1 = <[PurePath.str D := Dir]> f).
Proof.
  unfold Path_mkdir_exist_ok, Posix.mkdir, Path_is_dir, Posix.isdir.
  destruct (f !! PurePath.str D) as [[c d|]|] eqn:HD; simpl.
  - done.
  - intros [= <-]. by left.
  - destruct (f !! Posix.dirname (PurePath.str D)) as [[c d|]|]; simpl; try done.
    intros [= <-]. by right.
Qed.

Lemma mkdir_exist_ok_dir f D :
  Path_is_dir f D = true -> Path_mkdir_exist_ok f D = Ok f.
Proof.
  unfold Path_mkdir_exist_ok, Posix.mkdir, Path_is_dir, Posix.isdir.
  by destruct (f !! PurePath.str D) as [[c d|]|].
Qed.

Lemma mkdir_exist_ok_keeps f D f1 k x :
  Path_mkdir_exist_ok f D = Ok f1 -> f !! k = Some x -> f1 !! k = Some x.
Proof.
  intros [[-> _]|[HD ->]]%mkdir_exist_ok_inv Hk; [done|].
  rewrite lookup_insert_ne; [done|]. intros Heq. rewrite Heq in HD. congruence.
Qed.

Lemma mkdir_exist_ok_made f D f1 :
  Path_mkdir_exist_ok f D = Ok f1 -> f1 !! PurePath.str D = Some Dir.
Proof.
  intros [[-> ?]|[HD ->]]%mkdir_exist_ok_inv; [done|]. apply lookup_insert_eq.
Qed.

Lemma str_inj p q : path_wf p -> path_wf q -> PurePath.str p = PurePath.str q -> p = q.
Proof. intros Hp Hq Heq. by rewrite <- (Path_str p), <- (Path_str q), Heq. Qed.

Lemma dest_folder_wf s p : path_wf (dest_folder s p).
Proof. apply truediv_wf, Path_wf. Qed.

Lemma destination_ne_folder s p :
  PurePath.tail (PurePath.Path p) <> [] ->
  destination s p <> PurePath.str (dest_folder s p).
Proof.
  intros Hne Heq. pose proof (name_component _ (Path_wf p) Hne) as Hc.
  apply str_inj in Heq; [|apply truediv_wf|]; try apply dest_folder_wf.
  rewrite truediv_component in Heq by done.
  apply (f_equal (fun q => length (PurePath.tail q))) in Heq. simpl in Heq.
  rewrite length_app in Heq. simpl in Heq. lia.
Qed.

Lemma destination_dirname s p :
  PurePath.tail (PurePath.Path p) <> [] ->
  Posix.dirname (destination s p) = PurePath.str (dest_folder s p).
Proof.
  intros Hne. apply dirname_truediv; [apply dest_folder_wf|].
  by apply name_component; [apply Path_wf|].
Qed.

Lemma destination_no_name s p :
  PurePath.tail (PurePath.Path p) = [] ->
  destination s p = PurePath.str (dest_folder s p).
Proof. intros Hnil. unfold destination. by rewrite name_empty, truediv_empty. Qed.

Lemma name_tail p : PurePath.name p <> "" -> PurePath.tail p <> [].
Proof. intros Hn Hnil. by apply Hn, name_empty. Qed.

Lemma dest_folder_dirname s p :
  Posix.dirname (PurePath.str (dest_folder s p))
  = PurePath.str (PurePath.Path (downloads_path s)).
Proof. apply dirname_truediv; [apply Path_wf|apply classify_component]. Qed.

Lemma rename_file_frame f src dst c d f2 :
  f !! src = Some (File c d) ->
  Posix.rename f src dst = Ok f2 ->
  forall k, k <> src -> k <> dst -> f2 !! k = f !! k.
Proof.
  intros Hsrc. unfold Posix.rename. rewrite Hsrc.
  case_bool_decide as Heq; [by intros [= <-]|].
  destruct (f !! Posix.dirname dst) as [[|]|]; try done.
  destruct (f !! dst) as [[|]|]; try done; intros [= <-] k Hk1 Hk2;
    rewrite lookup_insert_ne by done; by rewrite lookup_delete_ne.
Qed.

Lemma rename_file_fresh f src dst c d :
  f !! src = Some (File c d) ->
  f !! dst = None ->
  f !! Posix.dirname dst = Some Dir ->
  Posix.rename f src dst = Ok (<[dst := File c d]> (delete src f)).
Proof.
  intros Hsrc Hdst Hdir. unfold Posix.rename. rewrite Hsrc.
  rewrite bool_decide_eq_false_2 by (intros ->; congruence).
  by rewrite Hdir, Hdst.
Qed.

Lemma mkdir_exist_ok_folder f D :
  path_wf D ->
  Path_is_file f D = false ->
  f !! Posix.dirname (PurePath.str D) = Some Dir ->
  Path_mkdir_exist_ok f D = Ok (<[PurePath.str D := Dir]> f).
Proof.
  intros _ Hnf Hparent. unfold Path_mkdir_exist_ok, Posix.mkdir, Path_is_file, Posix.isfile,
    Path_is_dir, Posix.isdir in *.
  destruct (f !! PurePath.str D) as [[|]|] eqn:HD; [done| |].
  - by rewrite insert_id.
  - by rewrite Hparent.
Qed.

Lemma shutil_move_file_inv f src dst c d f2 :
  f !! src = Some (File c d) ->
  Posix.isdir f dst = false ->
  shutil_move f src dst = Ok f2 ->
  f2 !! dst = Some (File c d)
  /\ (src <> dst -> f2 !! src = None)
  /\ forall k, k <> src -> k <> dst -> f2 !! k = f !! k.
Proof.
  intros Hsrc Hnd. unfold shutil_move. rewrite Hnd. unfold Posix.rename. rewrite Hsrc.
  case_bool_decide as Heq.
  - intros [= <-]. subst dst. done.
  - destruct (f !! Posix.dirname dst) as [[|]|]; try done.
    unfold Posix.isdir in Hnd.
    destruct (f !! dst) as [[c' d'|]|] eqn:Hdst; try done.
    + intros [= <-]. split; [apply lookup_insert_eq|]. split.
      * intros _. rewrite lookup_insert_ne by done. apply lookup_delete_eq.
      * intros k Hk1 Hk2. rewrite lookup_insert_ne by done. by rewrite lookup_delete_ne.
    + intros [= <-]. split; [apply lookup_insert_eq|]. split.
      * intros _. rewrite lookup_insert_ne by done. apply lookup_delete_eq.
      * intros k Hk1 Hk2. rewrite lookup_insert_ne by done. by rewrite lookup_delete_ne.
Qed.

Lemma shutil_move_file_ok f src dst c d :
  f !! src = Some (File c d) ->
  Posix.isdir f dst = false ->
  f !! Posix.dirname dst = Some Dir ->
  exists f2, shutil_move f src dst = Ok f2.
Proof.
  intros Hsrc Hnd Hdir. unfold shutil_move. rewrite Hnd. unfold Posix.rename.
  rewrite Hsrc, Hdir. case_bool_decide; [by eexists|].
  unfold Posix.isdir in Hnd. destruct (f !! dst) as [[|]|]; try done; by eexists.
Qed.

Lemma organize_file_success s p c d :
  fs s !! PurePath.str (PurePath.Path p) = Some (File c d) ->
  PurePath.name (PurePath.Path p) <> "" ->
  Path_is_dir (fs s) (PurePath.Path (downloads_path s)) = true ->
  Path_is_file (fs s) (dest_folder s p) = false ->
  Posix.isdir (fs s) (destination s p) = false ->
  exists f2,
    organize_body p s = (Ok tt, add_log (organized_record p) (set_fs f2 s))
    /\ organize_file p s = (Ok tt, add_log (organized_record p) (set_fs f2 s))
    /\ contents f2 (destination s p) = Some d
    /\ (PurePath.str (PurePath.Path p) <> destination s p ->
        f2 !! PurePath.str (PurePath.Path p) = None)
    /\ f2 !! PurePath.str (dest_folder s p) = Some Dir
    /\ forall k, k <> PurePath.str (PurePath.Path p) -> k <> destination s p ->
                 k <> PurePath.str (dest_folder s p) -> f2 !! k = fs s !! k.
Proof.
  intros Hsrc Hname%name_tail Hwatched Hfolder Hnd.
  assert (fs s !! PurePath.str (PurePath.Path (downloads_path s)) = Some Dir) as HD.
  { unfold Path_is_dir, Posix.isdir in Hwatched.
    by destruct (fs s !! PurePath.str (PurePath.Path (downloads_path s))) as [[]|]. }
  assert (PurePath.str (PurePath.Path p) <> PurePath.str (dest_folder s p)) as Hsf.
  { intros Heq. rewrite Heq in Hsrc. unfold Path_is_file, Posix.isfile in Hfolder.
    by rewrite Hsrc in Hfolder. }
  pose proof (destination_ne_folder s p Hname) as Hdf.
  set (f1 := <[PurePath.str (dest_folder s p) := Dir]> (fs s)).
  assert (Path_mkdir_exist_ok (fs s) (dest_folder s p) = Ok f1) as Hmk.
  { apply mkdir_exist_ok_folder; [apply dest_folder_wf|done|by rewrite dest_folder_dirname]. }
  assert (f1 !! PurePath.str (PurePath.Path p) = Some (File c d)) as Hsrc1
    by (subst f1; by rewrite lookup_insert_ne).
  assert (Posix.isdir f1 (destination s p) = false) as Hnd1.
  { unfold Posix.isdir in *. subst f1. by rewrite lookup_insert_ne. }
  destruct (shutil_move_file_ok f1 (PurePath.str (PurePath.Path p)) (destination s p) c d)
    as (f2 & Hmv); [done..| |].
  { rewrite destination_dirname by done. subst f1. apply lookup_insert_eq. }
  destruct (shutil_move_file_inv _ _ _ _ _ _ Hsrc1 Hnd1 Hmv) as (Hdst2 & Hsrc2 & Hrest).
  assert (organize_body p s = (Ok tt, add_log (organized_record p) (set_fs f2 s))) as Hbody.
  { rewrite organize_body_unfold. unfold Path_exists, Posix.exists_. rewrite Hsrc. cbn [negb].
    by rewrite Hmk, Hmv. }
  exists f2. split; [exact Hbody|]. split; [by rewrite organize_file_unfold, Hbody|].
  split; [unfold contents; by rewrite Hdst2|]. split; [exact Hsrc2|].
  split. { rewrite Hrest by done. subst f1. apply lookup_insert_eq. }
  intros k Hk1 Hk2 Hk3. rewrite Hrest by done. subst f1. by rewrite lookup_insert_ne.
Qed.

(** ** The sweep, entry by entry *)

(** When the list of a sweep is [before ++ p :: after], the sweep reaches
    [p] in the state [organize_all before s], calls [organize_file] on it
    once, goes on with [after], and ends with [p] out of the registry. *)
Lemma sweep_through s now before p after :
  dict_wf (pending_files s) ->
  files_to_remove now s = before ++ p :: after ->
  (p ∉ before) /\ (p ∉ after)
  /\ exists s',
       process_pending_files now s = (Ok tt, s')
       /\ dict_get p (pending_files s') = None
       /\ fs s' = fs (organize_all after (organize_file p (organize_all before s)).2)
       /\ log s' = log (organize_all after (organize_file p (organize_all before s)).2)
       /\ forall now', p ∉ files_to_remove now' s'.
Proof.
  intros Hwf Hlist. rewrite files_to_remove_due in Hlist.
  pose proof (NoDup_due now _ Hwf) as Hnd. rewrite Hlist in Hnd.
  apply NoDup_app in Hnd as (_ & Hdis & [Hp _]%NoDup_cons).
  split; [intros Hb; apply (Hdis _ Hb); by left|]. split; [done|].
  eexists. split; [by apply process_pending_files_spec|]. simpl.
  assert (dict_get p
            (filter (fun kv => kv.1 ∉ due now (pending_files s)) (pending_files s)) = None)
    as Hgone.
  { rewrite dict_get_filter_keys, decide_True; [done|].
    rewrite Hlist. apply elem_of_app. right. by left. }
  split; [done|]. rewrite Hlist, organize_all_app. simpl.
  split; [done|]. split; [done|].
  intros now'. rewrite files_to_remove_due. simpl.
  intros Hin%due_sub_keys. apply dict_get_None in Hgone. by rewrite Hlist in Hgone.
Qed.

(** ** C7: a file that is gone *)

(** C7. When a sweep reaches an entry whose file is no longer there,
    [organize_file] returns without raising, logs nothing and changes
    nothing, and the sweep ends with the entry out of the registry. *)
Theorem vanished_file_dropped s now before p after :
  reachable s ->
  files_to_remove now s = before ++ p :: after ->
  Path_exists (fs (organize_all before s)) (PurePath.Path p) = false ->
  organize_body p (organize_all before s) = (Ok tt, organize_all before s)
  /\ organize_file p (organize_all before s) = (Ok tt, organize_all before s)
  /\ exists s',
       process_pending_files now s = (Ok tt, s')
       /\ dict_get p (pending_files s') = None
       /\ fs s' = fs (organize_all after (organize_all before s))
       /\ log s' = log (organize_all after (organize_all before s)).
Proof.
  intros Hwf%reachable_wf Hlist Hgone.
  destruct (organize_file_missing p _ Hgone) as [Hbody Hfile].
  split; [done|]. split; [done|].
  destruct (sweep_through s now before p after Hwf Hlist)
    as (_ & _ & s' & Hrun & Hget & Hfs & Hlog & _).
  rewrite Hfile in Hfs, Hlog. by exists s'.
Qed.

Lemma reachable_deleted : reachable
  (mkState "/d" (pending_files (Scenario.started Scenario.home)) Scenario.home_deleted []).
Proof. apply (reach_env (Scenario.started Scenario.home)), reachable_init. Qed.

Lemma vanished_file_dropped_witness :
  let s := mkState "/d" (pending_files (Scenario.started Scenario.home))
             Scenario.home_deleted [] in
  organize_file "/d/report.PDF" s = (Ok tt, s)
  /\ exists s',
       process_pending_files (Scenario.hour 25) s = (Ok tt, s')
       /\ dict_get "/d/report.PDF" (pending_files s') = None
       /\ fs s' = Scenario.home_deleted
       /\ log s' = [].
Proof.
  intros s.
  destruct (vanished_file_dropped s (Scenario.hour 25) [] "/d/report.PDF" [])
    as (_ & Hfile & Hsweep).
  - apply reachable_deleted.
  - vm_compute. reflexivity.
  - vm_compute. reflexivity.
  - split; [exact Hfile|exact Hsweep].
Defined.

(** ** C3: a move that fails *)





(** ** C8: a name that is taken *)

(** C8, as stated, fails: [organize_file] neither raises nor leaves the
    file that has the name at the destination as it was. *)
Lemma destination_file_kept_counterexample :
  ~ (forall s p c d,
       reachable s ->
       Path_exists (fs s) (PurePath.Path p) = true ->
       PurePath.str (PurePath.Path p) <> destination s p ->
       fs s !! destination s p = Some (File c d) ->
       (exists e s1, organize_body p s = (Raise e, s1))
       \/ contents (fs (organize_file p s).2) (destination s p) = Some d).
Proof.
  intros Hclaim.
  destruct (Hclaim (Scenario.started Scenario.home_taken) "/d/report.PDF"
              (Scenario.hour 1) "old report" (reachable_init _ _ _))
    as [(e & s1 & Hraise)|Hkept].
  - vm_compute. reflexivity.
  - vm_compute. discriminate.
  - vm_compute. reflexivity.
  - vm_compute in Hraise. discriminate.
  - vm_compute in Hkept. discriminate.
Qed.

Lemma rename_file_onto_file f src dst c0 d0 c d :
  f !! src = Some (File c0 d0) ->
  f !! dst = Some (File c d) ->
  src <> dst ->
  f !! Posix.dirname dst = Some Dir ->
  Posix.rename f src dst = Ok (<[dst := File c0 d0]> (delete src f)).
Proof.
  intros Hsrc Hdst Hne Hdir. unfold Posix.rename.
  by rewrite Hsrc, bool_decide_eq_false_2, Hdir, Hdst.
Qed.

(** C8, amended. When the folder of the category holds a regular file of
    the name of the regular file that [organize_file] is called on,
    [organize_file] raises nothing and logs no error: the destination then
    holds the contents of the file that was moved, those of the file that
    was there are gone, nothing is left at the old path, every other name
    is as it was, and the one record added to the log is that of a move. *)
Theorem move_replaces_existing_file s p c0 d0 c d :
  fs s !! PurePath.str (PurePath.Path p) = Some (File c0 d0) ->
  fs s !! destination s p = Some (File c d) ->
  PurePath.str (PurePath.Path p) <> destination s p ->
  Path_is_dir (fs s) (dest_folder s p) = true ->
  exists s2,
    organize_body p s = (Ok tt, s2)
    /\ organize_file p s = (Ok tt, s2)
    /\ contents (fs s2) (destination s p) = Some d0
    /\ fs s2 !! PurePath.str (PurePath.Path p) = None
    /\ (forall k, k <> PurePath.str (PurePath.Path p) -> k <> destination s p ->
                  fs s2 !! k = fs s !! k)
    /\ pending_files s2 = pending_files s
    /\ log s2 = log s ++ [organized_record p].
Proof.
  intros Hsrc Hdst Hne Hfolder.
  set (fs' := <[destination s p := File c0 d0]>
                (delete (PurePath.str (PurePath.Path p)) (fs s))).
  assert (fs s !! PurePath.str (dest_folder s p) = Some Dir) as HD.
  { unfold Path_is_dir, Posix.isdir in Hfolder.
    by destruct (fs s !! PurePath.str (dest_folder s p)) as [[]|]. }
  assert (PurePath.tail (PurePath.Path p) <> []) as Htail.
  { intros Hnil. rewrite (destination_no_name s p Hnil) in Hdst. congruence. }
  assert (organize_body p s = (Ok tt, add_log (organized_record p) (set_fs fs' s))) as Hbody.
  { rewrite organize_body_unfold. unfold Path_exists, Posix.exists_. rewrite Hsrc. simpl.
    rewrite mkdir_exist_ok_dir by done.
    unfold shutil_move, Posix.isdir. rewrite Hdst.
    rewrite (rename_file_onto_file _ _ _ c0 d0 c d); try done.
    by rewrite destination_dirname. }
  exists (add_log (organized_record p) (set_fs fs' s)).
  split; [exact Hbody|]. split; [by rewrite organize_file_unfold, Hbody|].
  cbn [fs pending_files log add_log set_fs]. subst fs'.
  split; [unfold contents; by rewrite lookup_insert_eq|].
  split; [rewrite lookup_insert_ne by done; apply lookup_delete_eq|].
  split; [|done].
  intros k Hk1 Hk2. rewrite lookup_insert_ne by done. by rewrite lookup_delete_ne.
Qed.

Lemma move_replaces_existing_file_witness :
  contents (fs (organize_file "/d/report.PDF" (Scenario.started Scenario.home_taken)).2)
    "/d/documents/report.PDF" = Some "%PDF-1.7"
  /\ fs (organize_file "/d/report.PDF" (Scenario.started Scenario.home_taken)).2
       !! "/d/report.PDF" = None.
Proof.
  destruct (move_replaces_existing_file (Scenario.started Scenario.home_taken)
              "/d/report.PDF" 0 "%PDF-1.7" (Scenario.hour 1) "old report")
    as (s2 & _ & Hfile & Hdst & Hsrc & _).
  - vm_compute. reflexivity.
  - vm_compute. reflexivity.
  - vm_compute. discriminate.
  - vm_compute. reflexivity.
  - rewrite Hfile. split; [exact Hdst|exact Hsrc].
Defined.

(** ** C4: a file that is due *)

(** C4, as stated, fails: a due file that is still there is not moved when
    the creation of the folder raises. *)
Lemma due_file_moved_counterexample :
  ~ (forall s now before p after c d,
       reachable s ->
       files_to_remove now s = before ++ p :: after ->
       fs (organize_all before s) !! PurePath.str (PurePath.Path p) = Some (File c d) ->
       contents (fs (organize_file p (organize_all before s)).2) (destination s p)
       = Some d).
Proof.
  intros Hclaim.
  specialize (Hclaim (Scenario.started Scenario.home_blocked) (Scenario.hour 25)
                [] "/d/report.PDF" [] 0 "%PDF-1.7" (reachable_init _ _ _) eq_refl eq_refl).
  vm_compute in Hclaim. discriminate.
Qed.

Lemma shutil_move_no_name f p D :
  path_wf D ->
  PurePath.tail (PurePath.Path p) = [] ->
  f !! PurePath.str D = Some Dir ->
  PurePath.str (PurePath.Path p) <> PurePath.str D ->
  exists e, shutil_move f (PurePath.str (PurePath.Path p)) (PurePath.str D) = Raise e.
Proof.
  intros HD Hnil Hdir Hne. unfold shutil_move, Posix.isdir. rewrite Hdir.
  rewrite bool_decide_eq_false_2 by done.
  rewrite (Path_str (PurePath.Path p)) by apply Path_wf.
  rewrite name_empty by done. rewrite truediv_empty, Path_str by done.
  unfold Posix.exists_. rewrite Hdir. by eexists.
Qed.

(** C4, amended. When a sweep reaches a due entry whose path holds a
    regular file that has a name, the watched directory is a directory, no
    regular file has the name of the folder of the category, and the name
    the file is to get in that folder is not that of a directory, then the
    one call of [organize_file] on the entry raises nothing: it creates the
    folder when it is missing, puts the contents of the file under its own
    name in the folder of its category in the watched directory, leaves
    nothing at the old path and every other name as it was, and logs the
    move; the sweep calls [organize_file] on the entry this once and ends
    with the entry out of the registry. *)
Theorem due_file_moved s now before p after c d :
  reachable s ->
  files_to_remove now s = before ++ p :: after ->
  fs (organize_all before s) !! PurePath.str (PurePath.Path p) = Some (File c d) ->
  PurePath.name (PurePath.Path p) <> "" ->
  Path_is_dir (fs (organize_all before s)) (PurePath.Path (downloads_path s)) = true ->
  Path_is_file (fs (organize_all before s)) (dest_folder s p) = false ->
  Posix.isdir (fs (organize_all before s)) (destination s p) = false ->
  exists s2,
    organize_body p (organize_all before s) = (Ok tt, s2)
    /\ organize_file p (organize_all before s) = (Ok tt, s2)
    /\ contents (fs s2) (destination s p) = Some d
    /\ (PurePath.str (PurePath.Path p) <> destination s p ->
        fs s2 !! PurePath.str (PurePath.Path p) = None)
    /\ Path_is_dir (fs s2) (dest_folder s p) = true
    /\ (forall k, k <> PurePath.str (PurePath.Path p) -> k <> destination s p ->
                  k <> PurePath.str (dest_folder s p) ->
                  fs s2 !! k = fs (organize_all before s) !! k)
    /\ log s2 = log (organize_all before s) ++ [organized_record p]
    /\ (p ∉ before) /\ (p ∉ after)
    /\ exists s',
         process_pending_files now s = (Ok tt, s')
         /\ dict_get p (pending_files s') = None
         /\ fs s' = fs (organize_all after s2)
         /\ log s' = log (organize_all after s2).
Proof.
  intros Hwf%reachable_wf Hlist Hsrc Hname Hwatched Hnf Hnd.
  destruct (organize_all_pending before s) as [Hdl Hdp].
  assert (destination (organize_all before s) p = destination s p) as Hdest
    by (unfold destination, dest_folder; by rewrite Hdp).
  assert (dest_folder (organize_all before s) p = dest_folder s p) as Hfolder
    by (unfold dest_folder; by rewrite Hdp).
  set (s1 := organize_all before s) in *.
  destruct (organize_file_success s1 p c d) as (f2 & Hbody & Hfile & Hc & Hgone & HD & Hrest).
  { exact Hsrc. }
  { exact Hname. }
  { by rewrite Hdp. }
  { by rewrite Hfolder. }
  { by rewrite Hdest. }
  rewrite Hdest in Hc, Hgone, Hrest. rewrite Hfolder in HD, Hrest.
  exists (add_log (organized_record p) (set_fs f2 s1)).
  split; [exact Hbody|]. split; [exact Hfile|].
  cbn [fs log add_log set_fs].
  split; [exact Hc|]. split; [exact Hgone|].
  split. { unfold Path_is_dir, Posix.isdir. by rewrite HD. }
  split; [exact Hrest|]. split; [reflexivity|].
  destruct (sweep_through s now before p after Hwf Hlist)
    as (Hb & Ha & s' & Hrun & Hget & Hfs & Hlog).
  fold s1 in Hfs, Hlog. rewrite Hfile in Hfs, Hlog. cbn [snd] in Hfs, Hlog.
  destruct Hlog as [Hlog _].
  split; [exact Hb|]. split; [exact Ha|]. exists s'.
  split; [exact Hrun|]. split; [exact Hget|]. split; [exact Hfs|exact Hlog].
Qed.

Lemma due_file_moved_witness :
  exists s2,
    organize_body "/d/report.PDF" (Scenario.started Scenario.home) = (Ok tt, s2)
    /\ contents (fs s2) "/d/documents/report.PDF" = Some "%PDF-1.7"
    /\ fs s2 !! "/d/report.PDF" = None
    /\ exists s',
         process_pending_files (Scenario.hour 25) (Scenario.started Scenario.home)
         = (Ok tt, s')
         /\ dict_get "/d/report.PDF" (pending_files s') = None
         /\ dict_get "/d/photo.png" (pending_files s') = Some (Scenario.hour 24).
Proof.
  destruct (due_file_moved (Scenario.started Scenario.home) (Scenario.hour 25)
              [] "/d/report.PDF" [] 0 "%PDF-1.7")
    as (s2 & Hbody & _ & Hdst & Hsrc & _ & _ & _ & _ & _ & s' & Hrun & Hget & _).
  - apply reachable_init.
  - vm_compute. reflexivity.
  - vm_compute. reflexivity.
  - vm_compute. discriminate.
  - vm_compute. reflexivity.
  - vm_compute. reflexivity.
  - vm_compute. reflexivity.
  - exists s2. split; [exact Hbody|]. split; [exact Hdst|].
    split; [apply Hsrc; vm_compute; discriminate|].
    exists s'. split; [exact Hrun|]. split; [exact Hget|].
    vm_compute in Hrun. injection Hrun as <-. vm_compute. reflexivity.
Defined.

(** ** The sweep under notifications *)

Lemma run_app a b sw s :
  run (a ++ b) sw s = run b (run a sw s).1 (run a sw s).2.
Proof.
  revert sw s. induction a as [|[|ev now] a IH]; intros sw s; simpl; [done| |apply IH].
  destruct (sweep_step sw s) as [sw' s']. apply IH.
Qed.

Lemma organize_file_state p s :
  organize_file p s = (Ok tt, (organize_file p s).2).
Proof.
  pose proof (organize_file_ok p s) as Hok.
  destruct (organize_file p s) as [r s']. simpl in *. by subst.
Qed.

Lemma on_created_keys ev now s :
  (pending_files s).*1 `prefix_of` (pending_files (on_created ev now s).2).*1.
Proof.
  destruct (is_directory ev) eqn:Hd.
  - by rewrite on_created_directory.
  - rewrite on_created_file by done. simpl. rewrite dict_setitem_keys.
    destruct (dict_get _ _); [done|]. by apply prefix_app_r.
Qed.

Lemma on_created_new ev now s :
  is_directory ev = false -> src_path ev ∉ (pending_files s).*1 ->
  (pending_files (on_created ev now s).2).*1 = (pending_files s).*1 ++ [src_path ev].
Proof.
  intros Hd Hnew. rewrite on_created_file by done. simpl. rewrite dict_setitem_keys.
  apply dict_get_None in Hnew. by rewrite Hnew.
Qed.

Lemma prefix_subseteq (l1 l2 : list string) : l1 `prefix_of` l2 -> l1 ⊆ l2.
Proof. intros [k ->] x Hx. apply elem_of_app. by left. Qed.

Lemma sweep_inv_start now s :
  dict_wf (pending_files s) ->
  sweep_inv (pending_files s).*1 (start_sweep now s) s.
Proof.
  intros Hwf. split; [done|]. split; [apply NoDup_nil_2|].
  split; [apply list_subseteq_nil|]. simpl.
  split; [by rewrite length_fmap|]. split; [done|]. apply list_subseteq_nil.
Qed.

Lemma sweep_inv_notify keys0 sw s ev now :
  sweep_inv keys0 sw s -> sweep_inv keys0 sw (on_created ev now s).2.
Proof.
  intros (Hwf & Hnd & Hsub & Hph).
  split; [by apply on_created_wf|]. split; [done|]. split; [done|].
  pose proof (on_created_keys ev now s) as Hpre.
  destruct (sw_phase sw) as [|todo| |e]; [|  |done..].
  - destruct Hph as (Hused & Hk & Hvis). split; [done|]. split; [|done].
    by etrans.
  - destruct Hph as (Hdone & Htodo). split; [done|].
    intros x Hx. by apply (prefix_subseteq _ _ Hpre), Htodo.
Qed.

Lemma take_S_lookup (l : list string) i x :
  l !! i = Some x -> take (S i) l = take i l ++ [x].
Proof. intros Hx. by erewrite take_S_r. Qed.

Lemma NoDup_lookup_not_take (l : list string) i x :
  NoDup l -> l !! i = Some x -> x ∉ take i l.
Proof.
  intros Hnd Hx Hin. apply list_elem_of_lookup in Hin as (j & Hj).
  apply lookup_take_Some in Hj as [Hj Hlt].
  pose proof (NoDup_lookup _ _ _ _ Hnd Hx Hj). lia.
Qed.

Lemma sweep_inv_step keys0 sw s :
  NoDup keys0 ->
  sweep_inv keys0 sw s -> sweep_inv keys0 (sweep_step sw s).1 (sweep_step sw s).2.
Proof.
  intros Hnd0 (Hwf & Hnd & Hsub & Hph). unfold sweep_step.
  destruct (sw_phase sw) as [|[|p rest]| |e] eqn:Hphase.
  - destruct Hph as (Hused & Hpre & Hvis).
    case_bool_decide as Hsize; simpl.
    { unfold sweep_inv. simpl. done. }
    assert ((pending_files s).*1 = keys0) as Hkeys.
    { destruct Hpre as [k Hk]. rewrite Hk.
      apply (f_equal length) in Hk. rewrite length_app, length_fmap in Hk.
      destruct k; [by rewrite app_nil_r|]. simpl in Hk. lia. }
    destruct (pending_files s !! di_pos sw) as [[p c]|] eqn:Hlook; simpl.
    + assert (keys0 !! di_pos sw = Some p) as Hp.
      { rewrite <- Hkeys, list_lookup_fmap, Hlook. done. }
      case_bool_decide as Hst; simpl.
      * rewrite organize_file_state. simpl.
        destruct (organize_file_pending p s) as [Hpend _].
        unfold sweep_inv. simpl. rewrite Hpend.
        split; [done|]. split.
        { apply NoDup_app. split; [done|]. split; [|apply NoDup_singleton].
          intros x Hx ->%list_elem_of_singleton.
          by apply (NoDup_lookup_not_take keys0 (di_pos sw) p Hnd0 Hp), Hvis. }
        split.
        { intros x [Hx| ->%list_elem_of_singleton]%elem_of_app; [by apply Hsub|].
          by eapply list_elem_of_lookup_2. }
        split; [done|]. split; [done|].
        rewrite (take_S_lookup _ _ _ Hp).
        intros x [Hx|Hx]%elem_of_app; apply elem_of_app; [left; by apply Hvis|by right].
      * unfold sweep_inv. simpl. split; [done|]. split; [done|]. split; [done|].
        split; [done|]. split; [done|].
        rewrite (take_S_lookup _ _ _ Hp). intros x Hx. apply elem_of_app. left. by apply Hvis.
    + unfold sweep_inv. simpl. split; [done|]. split; [done|]. split; [done|].
      split; [by exists []|]. by rewrite Hkeys.
  - unfold sweep_inv. simpl. done.
  - destruct Hph as ((done_ & Hdone) & Htodo). unfold del_pending.
    rewrite dict_delitem_wf; [|done|apply Htodo; by left]. simpl.
    unfold sweep_inv. simpl. split; [by apply dict_wf_filter|]. split; [done|].
    split; [done|]. split.
    { exists (done_ ++ [p]). by rewrite <- app_assoc. }
    intros q Hq. assert (q ∈ (pending_files s).*1) as Hq' by (apply Htodo; by right).
    apply list_elem_of_fmap in Hq' as ([k v] & -> & Hin).
    apply list_elem_of_fmap. exists (k, v). split; [done|].
    apply list_elem_of_filter. split; [|done]. simpl. intros ->.
    rewrite Hdone in Hnd. apply NoDup_app in Hnd as (_ & _ & [Hp _]%NoDup_cons). done.
  - simpl. unfold sweep_inv. by rewrite Hphase.
  - simpl. unfold sweep_inv. by rewrite Hphase.
Qed.

Lemma sweep_inv_run keys0 schedule sw s :
  NoDup keys0 ->
  sweep_inv keys0 sw s ->
  sweep_inv keys0 (run schedule sw s).1 (run schedule sw s).2.
Proof.
  intros Hnd0. revert sw s.
  induction schedule as [|[|ev now] rest IH]; intros sw s Hinv; simpl; [done| |].
  - pose proof (sweep_inv_step keys0 sw s Hnd0 Hinv) as Hstep.
    destruct (sweep_step sw s) as [sw' s']. by apply IH.
  - by apply IH, sweep_inv_notify.
Qed.

Lemma on_created_in ev now s :
  is_directory ev = false -> src_path ev ∈ (pending_files (on_created ev now s).2).*1.
Proof.
  intros Hd. rewrite on_created_file by done. simpl.
  pose proof (dict_get_setitem_eq (src_path ev) now (pending_files s)) as Hg.
  apply dict_get_Some in Hg. apply list_elem_of_fmap. by exists (src_path ev, now).
Qed.

Lemma step_keeps_new keys0 sw s q :
  sweep_inv keys0 sw s -> q ∉ keys0 ->
  q ∈ (pending_files s).*1 -> q ∈ (pending_files (sweep_step sw s).2).*1.
Proof.
  intros (Hwf & Hnd & Hsub & Hph) Hnew Hq. unfold sweep_step.
  destruct (sw_phase sw) as [|[|p rest]| |e] eqn:Hphase; simpl; try done.
  - case_bool_decide; [done|].
    destruct (pending_files s !! di_pos sw) as [[p c]|]; [|done].
    case_bool_decide; [|done]. rewrite organize_file_state. simpl.
    by destruct (organize_file_pending p s) as [-> _].
  - destruct Hph as ((done_ & Hdone) & Htodo). unfold del_pending.
    rewrite dict_delitem_wf; [|done|apply Htodo; by left]. simpl.
    apply list_elem_of_fmap in Hq as ([k v] & -> & Hin).
    apply list_elem_of_fmap. exists (k, v). split; [done|].
    apply list_elem_of_filter. split; [|done]. simpl. intros ->.
    apply Hnew, Hsub. rewrite Hdone. apply elem_of_app. right. by left.
Qed.

Lemma run_keeps_new keys0 schedule sw s q :
  NoDup keys0 -> sweep_inv keys0 sw s -> q ∉ keys0 ->
  q ∈ (pending_files s).*1 -> q ∈ (pending_files (run schedule sw s).2).*1.
Proof.
  intros Hnd0. revert sw s.
  induction schedule as [|[|ev now] rest IH]; intros sw s Hinv Hnew Hq; simpl; [done| |].
  - pose proof (sweep_inv_step keys0 sw s Hnd0 Hinv) as Hstep.
    pose proof (step_keeps_new keys0 sw s q Hinv Hnew Hq) as Hq'.
    destruct (sweep_step sw s) as [sw' s']. by apply IH.
  - apply IH; [by apply sweep_inv_notify|done|].
    by apply (prefix_subseteq _ _ (on_created_keys ev now s)).
Qed.

Lemma run_notified keys0 schedule sw s ev now :
  NoDup keys0 -> sweep_inv keys0 sw s ->
  Notify ev now ∈ schedule -> is_directory ev = false -> src_path ev ∉ keys0 ->
  src_path ev ∈ (pending_files (run schedule sw s).2).*1.
Proof.
  intros Hnd0. revert sw s.
  induction schedule as [|[|ev' now'] rest IH]; intros sw s Hinv Hin Hd Hnew; simpl.
  - by apply elem_of_nil in Hin.
  - apply elem_of_cons in Hin as [?|Hin]; [done|].
    pose proof (sweep_inv_step keys0 sw s Hnd0 Hinv) as Hstep.
    destruct (sweep_step sw s) as [sw' s']. by apply IH.
  - apply elem_of_cons in Hin as [Heq|Hin].
    + injection Heq as <- <-.
      apply (run_keeps_new keys0); [done|by apply sweep_inv_notify|done|].
      by apply on_created_in.
    + apply IH; [by apply sweep_inv_notify|done..].
Qed.

Lemma run_raised schedule sw s e :
  sw_phase sw = Raised e ->
  (run schedule sw s).1 = sw
  /\ (pending_files s).*1 ⊆ (pending_files (run schedule sw s).2).*1.
Proof.
  intros Hph. revert s.
  induction schedule as [|[|ev now] rest IH]; intros s; simpl; [done| |].
  - unfold sweep_step. rewrite Hph. apply IH.
  - destruct (IH (on_created ev now s).2) as [-> Hsub]. split; [done|].
    intros x Hx. by apply Hsub, (prefix_subseteq _ _ (on_created_keys ev now s)).
Qed.

Lemma run_size_raises schedule sw s :
  sw_phase sw = Iterating ->
  (di_used sw < length (pending_files s))%nat ->
  Step ∈ schedule ->
  sw_phase (run schedule sw s).1
  = Raised (RuntimeError "dictionary changed size during iteration")
  /\ sw_files_to_remove (run schedule sw s).1 = sw_files_to_remove sw
  /\ (pending_files s).*1 ⊆ (pending_files (run schedule sw s).2).*1.
Proof.
  intros Hph. revert s.
  induction schedule as [|[|ev now] rest IH]; intros s Hlen Hin; simpl.
  - by apply elem_of_nil in Hin.
  - unfold sweep_step. rewrite Hph, bool_decide_eq_true_2 by lia.
    destruct (run_raised rest
                (set_phase (Raised (RuntimeError "dictionary changed size during iteration")) sw)
                s _ eq_refl) as [-> Hsub].
    done.
  - apply elem_of_cons in Hin as [?|Hin]; [done|].
    pose proof (on_created_keys ev now s) as Hpre.
    destruct (IH (on_created ev now s).2) as (H1 & H2 & H3); [|done|].
    + apply prefix_length in Hpre. rewrite !length_fmap in Hpre. lia.
    + split; [done|]. split; [done|].
      intros x Hx. by apply H3, (prefix_subseteq _ _ Hpre).
Qed.

(** With no notification in between, the steps of a sweep are those of
    [process_pending_files]. *)
Lemma run_iterating now items done_ acc s :
  pending_files s = done_ ++ items ->
  run (repeat Step (length items + 1))
    (mkSweep Iterating now (length (pending_files s)) (length done_) acc) s
  = (mkSweep (Deleting (acc ++ due now items)) now
       (length (pending_files s)) (length (pending_files s)) (acc ++ due now items),
     organize_all (due now items) s).
Proof.
  revert done_ acc s. induction items as [|[p c] rest IH]; intros done_ acc s Hpend.
  - simpl. unfold sweep_step. simpl.
    rewrite bool_decide_eq_false_2 by (intros H; by apply H).
    rewrite app_nil_r in Hpend. rewrite Hpend, lookup_ge_None_2 by done.
    unfold set_phase, due. simpl. by rewrite app_nil_r.
  - simpl. unfold sweep_step at 1. simpl.
    rewrite bool_decide_eq_false_2 by (intros H; by apply H).
    rewrite Hpend at 1. rewrite list_lookup_middle by done.
    unfold due. rewrite filter_cons. simpl.
    destruct (organize_file_pending p s) as [Hp _].
    case_bool_decide as Hst.
    + rewrite decide_True by done. rewrite organize_file_state. simpl.
      specialize (IH (done_ ++ [(p, c)]) (acc ++ [p]) (organize_file p s).2).
      rewrite Hp, length_app, <- app_assoc in IH. simpl in IH.
      replace (length done_ + 1)%nat with (S (length done_)) in IH by lia.
      rewrite IH by done. unfold due. by rewrite <- app_assoc.
    + rewrite decide_False by done.
      specialize (IH (done_ ++ [(p, c)]) acc s).
      rewrite length_app, <- app_assoc in IH. simpl in IH.
      replace (length done_ + 1)%nat with (S (length done_)) in IH by lia.
      by rewrite IH.
Qed.

Lemma run_deleting todo sw s s' :
  sw_phase sw = Deleting todo ->
  for_each todo del_pending s = (Ok tt, s') ->
  run (repeat Step (length todo + 1)) sw s = (set_phase Returned sw, s').
Proof.
  revert sw s. induction todo as [|p rest IH]; intros sw s Hph Hdel; simpl in *.
  - unfold sweep_step. rewrite Hph. by injection Hdel as <-.
  - unfold sweep_step at 1. rewrite Hph. unfold mbind, M_bind in Hdel.
    destruct (del_pending p s) as [[[]|e] s1]; [|done].
    rewrite (IH (set_phase (Deleting rest) sw) s1 eq_refl Hdel). done.
Qed.

Lemma run_sequential now s :
  dict_wf (pending_files s) ->
  exists s',
    process_pending_files now s = (Ok tt, s')
    /\ run (repeat Step (length (pending_files s) + 1
                         + (length (due now (pending_files s)) + 1)))
         (start_sweep now s) s
       = (mkSweep Returned now (length (pending_files s)) (length (pending_files s))
            (due now (pending_files s)), s').
Proof.
  intros Hwf. pose proof (process_pending_files_spec now s Hwf) as Hspec.
  eexists. split; [exact Hspec|].
  rewrite repeat_app, run_app.
  pose proof (run_iterating now (pending_files s) [] [] s eq_refl) as Hit.
  simpl in Hit. unfold start_sweep. rewrite Hit. simpl fst. simpl snd.
  erewrite run_deleting; [done|done|].
  unfold process_pending_files, mbind, M_bind, get in Hspec.
  by rewrite sweep_loop_spec in Hspec.
Qed.

(** ** C9: no lock *)

(** C9, as stated, fails: a notification for a new path while the first
    loop is running ends the sweep, and an entry that was due when the
    sweep started, and that no notification has touched, is never reached. *)
Lemma consistent_snapshot_counterexample :
  ~ (forall s now schedule p,
       reachable s ->
       sw_phase (run schedule (start_sweep now s) s).1 <> Iterating ->
       p ∈ due now (pending_files s) ->
       (forall ev t, Notify ev t ∈ schedule -> src_path ev <> p) ->
       p ∈ sw_files_to_remove (run schedule (start_sweep now s) s).1).
Proof.
  intros Hclaim.
  specialize (Hclaim (Scenario.started Scenario.home) (Scenario.hour 49)
                Scenario.racing "/d/photo.png" (reachable_init _ _ _)).
  assert ("/d/photo.png" ∈ ["/d/report.PDF"]) as Hin.
  { apply Hclaim.
    - vm_compute. discriminate.
    - vm_compute. right. by left.
    - intros ev t Hev. unfold Scenario.racing in Hev.
      apply elem_of_cons in Hev as [?|Hev]; [done|].
      apply elem_of_cons in Hev as [Heq|Hev]; [by injection Heq as -> ->|].
      apply elem_of_cons in Hev as [?|Hev]; [done|]. by apply elem_of_nil in Hev. }
  apply elem_of_cons in Hin as [?|Hin]; [done|]. by apply elem_of_nil in Hin.
Qed.

(** C9, amended. The handler and the sweep share the registry with no
    mutual exclusion. Whatever the notifications that fall between the
    iterations of a sweep: the sweep calls [organize_file] on no entry
    twice, and only on paths that were pending when it started; a path that
    was not pending when the sweep started and that the handler inserts is
    in the registry afterwards; and with no notification the iterations add
    up to [process_pending_files]. But when the handler inserts a path that
    is not pending while the first loop is running, the next iteration
    raises [RuntimeError]: the sweep ends there, having reached no further
    entry and removed none. *)
Theorem sweep_under_notifications s now schedule :
  reachable s ->
  let r := run schedule (start_sweep now s) s in
  NoDup (sw_files_to_remove r.1)
  /\ sw_files_to_remove r.1 ⊆ (pending_files s).*1
  /\ (forall ev t,
        Notify ev t ∈ schedule -> is_directory ev = false ->
        src_path ev ∉ (pending_files s).*1 ->
        src_path ev ∈ (pending_files r.2).*1)
  /\ (forall pre ev t post,
        schedule = pre ++ Notify ev t :: post ->
        sw_phase (run pre (start_sweep now s) s).1 = Iterating ->
        is_directory ev = false ->
        src_path ev ∉ (pending_files (run pre (start_sweep now s) s).2).*1 ->
        Step ∈ post ->
        sw_phase r.1 = Raised (RuntimeError "dictionary changed size during iteration")
        /\ sw_files_to_remove r.1 = sw_files_to_remove (run pre (start_sweep now s) s).1
        /\ (pending_files s).*1 ⊆ (pending_files r.2).*1)
  /\ exists s',
       process_pending_files now s = (Ok tt, s')
       /\ run (repeat Step (length (pending_files s) + 1
                            + (length (due now (pending_files s)) + 1)))
            (start_sweep now s) s
          = (mkSweep Returned now (length (pending_files s)) (length (pending_files s))
               (due now (pending_files s)), s').
Proof.
  intros Hwf%reachable_wf r.
  pose proof (sweep_inv_start now s Hwf) as Hinv0.
  pose proof (sweep_inv_run _ schedule _ _ Hwf Hinv0) as (_ & Hnd & Hsub & _).
  split; [exact Hnd|]. split; [exact Hsub|]. split.
  { intros ev t Hin Hd Hnew.
    exact (run_notified _ schedule _ _ ev t Hwf Hinv0 Hin Hd Hnew). }
  split; [|by apply run_sequential].
  intros pre ev t post -> Hph Hd Hnew Hstep. subst r. rewrite run_app.
  pose proof (sweep_inv_run _ pre _ _ Hwf Hinv0) as Hinv1.
  set (sw1 := (run pre (start_sweep now s) s).1) in *.
  set (s1 := (run pre (start_sweep now s) s).2) in *.
  destruct Hinv1 as (_ & _ & _ & Hit). rewrite Hph in Hit.
  destruct Hit as (Hused & Hpre & _). simpl.
  destruct (run_size_raises post sw1 (on_created ev t s1).2 Hph) as (H1 & H2 & H3);
    [|done|].
  - pose proof (f_equal length (on_created_new ev t s1 Hd Hnew)) as Hlen.
    rewrite length_app, !length_fmap in Hlen. simpl in Hlen.
    apply prefix_length in Hpre. rewrite !length_fmap in Hpre.
    rewrite length_fmap in Hused. lia.
  - split; [done|]. split; [done|].
    intros x Hx. apply H3, (prefix_subseteq _ _ (on_created_keys ev t s1)).
    by apply (prefix_subseteq _ _ Hpre).
Qed.

Lemma sweep_under_notifications_witness :
  let r := run Scenario.racing (start_sweep (Scenario.hour 49) (Scenario.started Scenario.home))
             (Scenario.started Scenario.home) in
  sw_phase r.1 = Raised (RuntimeError "dictionary changed size during iteration")
  /\ sw_files_to_remove r.1 = ["/d/report.PDF"]
  /\ "/d/new.zip" ∈ (pending_files r.2).*1
  /\ "/d/photo.png" ∈ (pending_files r.2).*1.
Proof.
  intros r.
  destruct (sweep_under_notifications (Scenario.started Scenario.home) (Scenario.hour 49)
              Scenario.racing (reachable_init _ _ _))
    as (_ & _ & Hkept & Hraise & _).
  destruct (Hraise [Step] (Scenario.created "/d/new.zip") (Scenario.hour 49) [Step])
    as (Hph & Hvis & Hkeys).
  - reflexivity.
  - vm_compute. reflexivity.
  - reflexivity.
  - vm_compute. intros Hin.
    apply elem_of_cons in Hin as [?|Hin]; [done|].
    apply elem_of_cons in Hin as [?|Hin]; [done|]. by apply elem_of_nil in Hin.
  - by left.
  - split; [exact Hph|]. split; [etrans; [exact Hvis|vm_compute; reflexivity]|]. split.
    + apply (Hkept (Scenario.created "/d/new.zip") (Scenario.hour 49)).
      * unfold Scenario.racing. right. by left.
      * reflexivity.
      * vm_compute. intros Hin.
        apply elem_of_cons in Hin as [?|Hin]; [done|].
        apply elem_of_cons in Hin as [?|Hin]; [done|]. by apply elem_of_nil in Hin.
    + apply Hkeys. vm_compute. right. by left.
Defined.

(** * Further properties *)

(** ** The registry after the constructor *)

Lemma glob_member_inv f dp k :
  k ∈ PurePath.str <$> Path_glob_star f (PurePath.Path dp) ->
  Path_is_dir f (PurePath.Path dp) = true
  /\ is_Some (f !! k)
  /\ exists n, child_name (PurePath.Path dp) k = Some n.
Proof.
  unfold Path_glob_star. destruct (Path_is_dir f (PurePath.Path dp)) eqn:Hdir.
  - intros (q & -> & (n & -> & Hn)%list_elem_of_fmap)%list_elem_of_fmap.
    split; [done|]. unfold scandir in Hn.
    apply list_elem_of_omap in Hn as ([k x] & Hin & Hchild). simpl in Hchild.
    apply elem_of_map_to_list in Hin.
    assert (PurePath.str (PurePath.Path dp // n) = k) as ->.
    { unfold child_name in Hchild.
      destruct (bool_decide (PurePath.str (PurePath.Path k) = k)
                && bool_decide (PurePath.root (PurePath.Path k)
                                = PurePath.root (PurePath.Path dp))
                && bool_decide (PurePath.tail (PurePath.Path k)
                                = PurePath.tail (PurePath.Path dp)
                                  ++ [PurePath.name (PurePath.Path k)]))
        eqn:Hcond; [|done].
      injection Hchild as <-.
      apply andb_prop in Hcond as [[Hstr Hroot]%andb_prop Htail].
      apply bool_decide_eq_true_1 in Hstr, Hroot, Htail.
      rewrite truediv_component.
      - rewrite <- Hroot, <- Htail. by destruct (PurePath.Path k).
      - apply name_component; [apply Path_wf|]. rewrite Htail.
        intros Hnil. by apply app_eq_nil in Hnil as [_ ?]. }
    split; [by eexists|]. by exists n.
  - intros Hin. simpl in Hin. by apply elem_of_nil in Hin.
Qed.

(** X1. The constructor returns without raising and without touching the
    file system, and the registry it leaves holds exactly the regular files
    that are direct entries of the watched directory, each with its
    [st_ctime]: directories, files further down and files elsewhere are not
    queued. *)
Theorem constructor_registry_exact dp f l :
  exists s,
    init dp f l = (Ok tt, s)
    /\ fs s = f /\ downloads_path s = dp
    /\ dict_wf (pending_files s)
    /\ forall k c,
         dict_get k (pending_files s) = Some c
         <-> Path_is_dir f (PurePath.Path dp) = true
             /\ (exists n, child_name (PurePath.Path dp) k = Some n)
             /\ exists d, f !! k = Some (File c d).
Proof.
  destruct (init_spec dp f l) as (s & Hrun & Hfs & Hdp & Hwf & Hget).
  exists s. split; [done|]. split; [done|]. split; [done|]. split; [done|].
  intros k c. rewrite Hget. split.
  - destruct (f !! k) as [[c' d|]|] eqn:Hk; [|done..].
    case_decide as Hin; [|done]. intros [= ->].
    apply glob_member_inv in Hin as (Hdir & _ & Hchild).
    split; [done|]. split; [done|]. by exists d.
  - intros (Hdir & (n & Hchild) & (d & Hk)). rewrite Hk.
    rewrite decide_True; [done|]. by eapply glob_member.
Qed.

(** X2. When the watched directory is missing, or is a regular file, the
    constructor still returns: nothing is queued and only the two lines of
    the start are logged. *)
Theorem constructor_without_directory dp f l :
  Path_is_dir f (PurePath.Path dp) = false ->
  init dp f l
  = (Ok tt,
     mkState dp [] f
       (l ++ [INFO ("Organizer started. Monitoring: " +:+ dp);
              INFO "Processing existing files..."])).
Proof.
  intros Hdir. unfold init, process_existing_files, mbind, M_bind, logging_info, modify, get.
  simpl. unfold Path_glob_star. rewrite Hdir. simpl.
  unfold mret, M_ret, add_log. simpl. by rewrite <- app_assoc.
Qed.

Lemma constructor_without_directory_witness :
  pending_files (init "/nowhere" Scenario.home []).2 = [].
Proof.
  rewrite (constructor_without_directory "/nowhere" Scenario.home []).
  - reflexivity.
  - vm_compute. reflexivity.
Defined.

(** ** Notifications *)

(** X3. A notification for a file whose path is not pending appends the
    path to the registry, after the entries that are there and with the
    time of the notification, leaves every other entry and the file system
    alone, and logs the base name; a notification for a directory changes
    nothing at all. *)
Theorem on_created_new_path s ev now :
  src_path ev ∉ (pending_files s).*1 ->
  (is_directory ev = false ->
   on_created ev now s
   = (Ok tt,
      mkState (downloads_path s) (pending_files s ++ [(src_path ev, now)]) (fs s)
        (log s ++ [INFO ("New file detected: " +:+ os_path_basename (src_path ev))])))
  /\ (is_directory ev = true -> on_created ev now s = (Ok tt, s)).
Proof.
  intros Hnew. split; [|apply on_created_directory].
  intros Hd. rewrite on_created_file by done.
  unfold add_log, set_pending_files. simpl. do 3 f_equal.
  clear Hd. induction (pending_files s) as [|[k v] rest IH]; simpl; [done|].
  rewrite fmap_cons, not_elem_of_cons in Hnew. destruct Hnew as [Hne Hrest].
  simpl in Hne. rewrite bool_decide_eq_false_2 by done. f_equal. by apply IH.
Qed.

Lemma on_created_new_path_witness :
  pending_files
    (on_created (Scenario.created "/d/new.zip") (Scenario.hour 30)
       (Scenario.started Scenario.home)).2
  = [("/d/report.PDF", 0); ("/d/photo.png", Scenario.hour 24);
     ("/d/new.zip", Scenario.hour 30)].
Proof.
  rewrite (proj1 (on_created_new_path (Scenario.started Scenario.home)
                    (Scenario.created "/d/new.zip") (Scenario.hour 30) ltac:(vm_compute;
             intros Hin;
             apply elem_of_cons in Hin as [?|Hin]; [done|];
             apply elem_of_cons in Hin as [?|Hin]; [done|];
             by apply elem_of_nil in Hin)) eq_refl).
  vm_compute. reflexivity.
Defined.

(** ** The registry after a sweep *)

Lemma filter_ext_in {A} (P Q : A -> Prop) `{!forall x, Decision (P x)}
    `{!forall x, Decision (Q x)} (l : list A) :
  (forall x, x ∈ l -> P x <-> Q x) -> filter P l = filter Q l.
Proof.
  induction l as [|a l IH]; intros Hext; [done|].
  rewrite !filter_cons.
  assert (filter P l = filter Q l) as -> by (apply IH; intros x Hx; apply Hext; by right).
  apply decide_ext, Hext. by left.
Qed.

Lemma filter_not_due now d :
  dict_wf d ->
  filter (fun kv => kv.1 ∉ due now d) d
  = filter (fun kv => now - kv.2 < timedelta_hours 24) d.
Proof.
  intros Hwf. apply filter_ext_in. intros [k v] Hin. simpl. split.
  - intros Hnot. destruct (Z_lt_dec (now - v) (timedelta_hours 24)) as [|Hge]; [done|].
    destruct Hnot. apply elem_of_due. exists v. split; [done|lia].
  - intros Hy (t & Hin' & Hst)%elem_of_due.
    apply (dict_get_elem_of _ _ _ Hwf) in Hin, Hin'. rewrite Hin in Hin'.
    injection Hin' as ->. lia.
Qed.

(** A sweep returns, and what it leaves in the registry are the young
    entries. *)
Lemma process_pending_files_returns s now :
  reachable s ->
  exists s',
    process_pending_files now s = (Ok tt, s')
    /\ pending_files s'
       = filter (fun kv => now - kv.2 < timedelta_hours 24) (pending_files s)
    /\ downloads_path s' = downloads_path s
    /\ reachable s'.
Proof.
  intros Hreach. pose proof (reachable_wf s Hreach) as Hwf.
  pose proof (process_pending_files_spec now s Hwf) as Hspec.
  eexists. split; [exact Hspec|]. simpl.
  split; [by apply filter_not_due|].
  split; [apply organize_all_pending|].
  by eapply reach_sweep.
Qed.

(** X4. In every state an organizer goes through, a sweep returns without
    raising: no exception of a move and no [KeyError] of the clean-up gets
    out of it. What it leaves in the registry are the entries younger than
    24 hours, in the order they had, and the watched directory is the same. *)
Theorem sweep_returns s now :
  reachable s ->
  exists s',
    process_pending_files now s = (Ok tt, s')
    /\ pending_files s'
       = filter (fun kv => now - kv.2 < timedelta_hours 24) (pending_files s)
    /\ downloads_path s' = downloads_path s
    /\ reachable s'.
Proof.
  intros Hreach. pose proof (reachable_wf s Hreach) as Hwf.
  pose proof (process_pending_files_spec now s Hwf) as Hspec.
  eexists. split; [exact Hspec|]. simpl.
  split; [by apply filter_not_due|].
  split; [apply organize_all_pending|].
  by eapply reach_sweep.
Qed.

Lemma sweep_returns_witness :
  exists s',
    process_pending_files (Scenario.hour 25) (Scenario.started Scenario.home_blocked)
    = (Ok tt, s')
    /\ pending_files s'
       = [("/d/documents", Scenario.hour 24); ("/d/photo.png", Scenario.hour 24)].
Proof.
  destruct (sweep_returns (Scenario.started Scenario.home_blocked) (Scenario.hour 25))
    as (s' & Hrun & Hpend & _).
  - apply reachable_init.
  - exists s'. split; [exact Hrun|]. rewrite Hpend. vm_compute. reflexivity.
Defined.

Lemma due_nil_young now now' d :
  now' <= now ->
  due now' (filter (fun kv => now - kv.2 < timedelta_hours 24) d) = [].
Proof.
  intros Hle. unfold due. rewrite list_filter_filter.
  rewrite (filter_ext_in _ (fun _ => False)); [|intros [k v] _; simpl; lia].
  induction d as [|kv d IH]; [done|]. by rewrite filter_cons_False by tauto.
Qed.

(** X5. A sweep run right after a sweep, at the same time or an earlier
    one, finds nothing to do: it calls [organize_file] on no entry and
    leaves the registry, the files and the log as they are. *)
Theorem sweep_twice s now now' s1 :
  reachable s ->
  process_pending_files now s = (Ok tt, s1) ->
  now' <= now ->
  files_to_remove now' s1 = []
  /\ process_pending_files now' s1 = (Ok tt, s1).
Proof.
  intros Hreach Hrun Hle.
  destruct (process_pending_files_returns s now Hreach) as (s' & Hrun' & Hpend & _ & Hreach').
  rewrite Hrun in Hrun'. injection Hrun' as <-.
  assert (due now' (pending_files s1) = []) as Hdue
    by (rewrite Hpend; by apply due_nil_young).
  split; [by rewrite files_to_remove_due|].
  rewrite process_pending_files_spec by by apply reachable_wf.
  rewrite Hdue. simpl. f_equal. destruct s1 as [dp d f l]. unfold set_pending_files. simpl.
  f_equal. apply filter_all, Forall_forall. intros ? _. apply not_elem_of_nil.
Qed.

Lemma sweep_twice_witness :
  let s1 := (process_pending_files (Scenario.hour 25) (Scenario.started Scenario.home)).2 in
  process_pending_files (Scenario.hour 25) s1 = (Ok tt, s1).
Proof.
  intros s1.
  apply (sweep_twice (Scenario.started Scenario.home) (Scenario.hour 25) (Scenario.hour 25) s1).
  - apply reachable_init.
  - vm_compute. reflexivity.
  - lia.
Defined.

(** ** The loop of [main] *)

Lemma reachable_add_log r s : reachable s -> reachable (add_log r s).
Proof. intros Hs. apply (reach_env s (fs s) (log s ++ [r]) Hs). Qed.

Lemma main_iteration_spec now s :
  reachable s ->
  exists s',
    main_iteration now s = (Ok tt, s')
    /\ pending_files s'
       = filter (fun kv => now - kv.2 < timedelta_hours 24) (pending_files s)
    /\ reachable s'.
Proof.
  intros Hs. unfold main_iteration, mbind, M_bind, logging_info, modify.
  destruct (process_pending_files_returns (add_log (INFO "Starting pending files check...") s) now)
    as (s1 & Hrun & Hpend & _ & Hreach); [by apply reachable_add_log|].
  rewrite Hrun. eexists. split; [done|]. simpl. split; [done|].
  by apply reachable_add_log.
Qed.

Lemma main_loop_spec times s :
  reachable s ->
  exists s',
    main_loop times s = (Ok tt, s')
    /\ pending_files s'
       = filter (fun kv => Forall (fun x => x - kv.2 < timedelta_hours 24) times)
           (pending_files s)
    /\ reachable s'.
Proof.
  revert s. induction times as [|x times IH]; intros s Hs.
  - exists s. split; [done|]. split; [|done].
    symmetry. apply filter_all, Forall_forall. intros ? _. constructor.
  - destruct (main_iteration_spec x s Hs) as (s1 & Hrun & Hpend & Hs1).
    destruct (IH s1 Hs1) as (s' & Hrun' & Hpend' & Hs').
    exists s'. split.
    { unfold main_loop in *. simpl. unfold mbind, M_bind. by rewrite Hrun. }
    split; [|done]. rewrite Hpend', Hpend, list_filter_filter.
    apply list_filter_iff. intros kv. by rewrite Forall_cons, (comm and).
Qed.











(** ** What [organize_file] does to the files *)

(** X7. When the path holds a regular file that has a name, the watched
    directory is a directory, the name of the category is free or that of a
    directory, and nothing has the name of the file in that folder,
    [organize_file] succeeds: it creates the folder when it is missing,
    puts the contents of the file under its own name in the folder, leaves
    nothing at the old path and every other name as it was, logs the move,
    and leaves the registry alone. *)
Theorem organize_file_moves s p c d :
  fs s !! PurePath.str (PurePath.Path p) = Some (File c d) ->
  PurePath.name (PurePath.Path p) <> "" ->
  Path_is_dir (fs s) (PurePath.Path (downloads_path s)) = true ->
  Path_is_file (fs s) (dest_folder s p) = false ->
  fs s !! destination s p = None ->
  exists s2,
    organize_file p s = (Ok tt, s2)
    /\ contents (fs s2) (destination s p) = Some d
    /\ fs s2 !! PurePath.str (PurePath.Path p) = None
    /\ fs s2 !! PurePath.str (dest_folder s p) = Some Dir
    /\ (forall k, k <> PurePath.str (PurePath.Path p) -> k <> destination s p ->
                  k <> PurePath.str (dest_folder s p) -> fs s2 !! k = fs s !! k)
    /\ downloads_path s2 = downloads_path s
    /\ pending_files s2 = pending_files s
    /\ log s2 = log s ++ [organized_record p].
Proof.
  intros Hsrc Hname Hwatched Hfolder Hdst.
  destruct (organize_file_success s p c d) as (f2 & _ & Hfile & Hc & Hgone & HD & Hrest);
    [done..| |].
  { unfold Posix.isdir. by rewrite Hdst. }
  exists (add_log (organized_record p) (set_fs f2 s)).
  split; [exact Hfile|]. cbn [fs log pending_files downloads_path add_log set_fs].
  split; [exact Hc|]. split; [apply Hgone; intros Heq; congruence|].
  split; [exact HD|]. split; [exact Hrest|]. done.
Qed.

Lemma organize_file_moves_witness :
  contents (fs (organize_file "/d/photo.png" (Scenario.started Scenario.home)).2)
    "/d/images/photo.png" = Some "PNG"
  /\ fs (organize_file "/d/photo.png" (Scenario.started Scenario.home)).2 !! "/d/photo.png"
     = None
  /\ fs (organize_file "/d/photo.png" (Scenario.started Scenario.home)).2 !! "/d/images"
     = Some Dir.
Proof.
  destruct (organize_file_moves (Scenario.started Scenario.home) "/d/photo.png"
              (Scenario.hour 24) "PNG")
    as (s2 & Hfile & Hc & Hgone & HD & _).
  - vm_compute. reflexivity.
  - vm_compute. discriminate.
  - vm_compute. reflexivity.
  - vm_compute. reflexivity.
  - vm_compute. reflexivity.
  - rewrite Hfile. split; [exact Hc|]. split; [exact Hgone|exact HD].
Defined.





Lemma destination_Path_str s p : PurePath.str (PurePath.Path (destination s p)) = destination s p.
Proof.
  unfold destination. rewrite Path_str; [done|]. apply truediv_wf, dest_folder_wf.
Qed.

Lemma nested_dirname s p :
  PurePath.name (PurePath.Path p) <> "" ->
  Posix.dirname
    (PurePath.str (PurePath.Path (destination s p) // PurePath.name (PurePath.Path p)))
  = destination s p.
Proof.
  intros Hname%name_tail. rewrite dirname_truediv; [apply destination_Path_str|apply Path_wf|].
  by apply name_component; [apply Path_wf|].
Qed.

Lemma name_Path_str p :
  PurePath.name (PurePath.Path (PurePath.str (PurePath.Path p)))
  = PurePath.name (PurePath.Path p).
Proof. by rewrite Path_str by apply Path_wf. Qed.

(** X10. When the name the file is to get in the folder of its category is
    that of a directory, in which nothing has the name of the file,
    [organize_file] succeeds and puts the contents of the file inside that
    directory, one level below the folder of the category, under the name
    of the file; nothing is left at the old path, every other name is as it
    was, and the move is logged. *)
Theorem organize_file_into_directory s p c d :
  fs s !! PurePath.str (PurePath.Path p) = Some (File c d) ->
  PurePath.name (PurePath.Path p) <> "" ->
  Path_is_dir (fs s) (dest_folder s p) = true ->
  Posix.isdir (fs s) (destination s p) = true ->
  fs s !! PurePath.str (PurePath.Path (destination s p) // PurePath.name (PurePath.Path p))
  = None ->
  exists s2,
    organize_file p s = (Ok tt, s2)
    /\ contents (fs s2)
         (PurePath.str (PurePath.Path (destination s p) // PurePath.name (PurePath.Path p)))
       = Some d
    /\ fs s2 !! PurePath.str (PurePath.Path p) = None
    /\ (forall k,
          k <> PurePath.str (PurePath.Path p) ->
          k <> PurePath.str (PurePath.Path (destination s p) // PurePath.name (PurePath.Path p)) ->
          fs s2 !! k = fs s !! k)
    /\ downloads_path s2 = downloads_path s
    /\ pending_files s2 = pending_files s
    /\ log s2 = log s ++ [organized_record p].
Proof.
  intros Hsrc Hname Hfolder Hdir Hnested.
  set (nested := PurePath.str (PurePath.Path (destination s p) // PurePath.name (PurePath.Path p)))
    in *.
  exists (add_log (organized_record p)
            (set_fs (<[nested := File c d]> (delete (PurePath.str (PurePath.Path p)) (fs s))) s)).
  split.
  { rewrite organize_file_unfold, organize_body_unfold.
    unfold Path_exists, Posix.exists_. rewrite Hsrc. cbn [negb].
    rewrite mkdir_exist_ok_dir by done.
    unfold shutil_move. rewrite Hdir.
    rewrite bool_decide_eq_false_2.
    2:{ intros Heq. unfold Posix.isdir in Hdir. rewrite <- Heq, Hsrc in Hdir. done. }
    rewrite name_Path_str. fold nested. unfold Posix.exists_. rewrite Hnested.
    rewrite (rename_file_fresh _ _ _ c d); [done..|].
    subst nested. rewrite nested_dirname by done. unfold Posix.isdir in Hdir.
    by destruct (fs s !! destination s p) as [[|]|]. }
  cbn [fs log pending_files downloads_path add_log set_fs].
  assert (PurePath.str (PurePath.Path p) <> nested) as Hne by (intros Heq; congruence).
  split; [unfold contents; by rewrite lookup_insert_eq|].
  split; [rewrite lookup_insert_ne by done; apply lookup_delete_eq|].
  split; [|done].
  intros k Hk1 Hk2. rewrite lookup_insert_ne by done. by rewrite lookup_delete_ne.
Qed.

Lemma organize_file_into_directory_witness :
  let f := delete "/d/documents/report.PDF/report.PDF" Scenario.home_clash in
  contents (fs (organize_file "/d/report.PDF" (mkState "/d" [] f [])).2)
    "/d/documents/report.PDF/report.PDF" = Some "%PDF-1.7"
  /\ fs (organize_file "/d/report.PDF" (mkState "/d" [] f [])).2 !! "/d/report.PDF" = None.
Proof.
  intros f.
  destruct (organize_file_into_directory (mkState "/d" [] f []) "/d/report.PDF" 0 "%PDF-1.7")
    as (s2 & Hfile & Hc & Hgone & _).
  - vm_compute. reflexivity.
  - vm_compute. discriminate.
  - vm_compute. reflexivity.
  - vm_compute. reflexivity.
  - vm_compute. reflexivity.
  - rewrite Hfile. split; [exact Hc|exact Hgone].
Defined.

(** X11. When that directory already holds something of the name of the
    file, [shutil.move] raises: [organize_file] logs the error with the
    path that is taken and leaves the files as they are. *)
Theorem organize_file_name_taken_in_directory s p c d :
  fs s !! PurePath.str (PurePath.Path p) = Some (File c d) ->
  Path_is_dir (fs s) (dest_folder s p) = true ->
  Posix.isdir (fs s) (destination s p) = true ->
  Posix.exists_ (fs s)
    (PurePath.str (PurePath.Path (destination s p) // PurePath.name (PurePath.Path p)))
  = true ->
  organize_file p s
  = (Ok tt,
     add_log
       (error_record p
          (ShutilError
             ("Destination path '"
              +:+ PurePath.str (PurePath.Path (destination s p)
                                // PurePath.name (PurePath.Path p))
              +:+ "' already exists")))
       s).
Proof.
  intros Hsrc Hfolder Hdir Hnested.
  rewrite organize_file_unfold, organize_body_unfold.
  unfold Path_exists at 1. unfold Posix.exists_ at 1. rewrite Hsrc. cbn [negb].
  rewrite mkdir_exist_ok_dir by done.
  unfold shutil_move. rewrite Hdir.
  rewrite bool_decide_eq_false_2.
  2:{ intros Heq. unfold Posix.isdir in Hdir. rewrite <- Heq, Hsrc in Hdir. done. }
  rewrite name_Path_str, Hnested. by destruct s.
Qed.

Lemma organize_file_name_taken_in_directory_witness :
  fs (organize_file "/d/report.PDF" (Scenario.started Scenario.home_clash)).2
  = Scenario.home_clash.
Proof.
  rewrite (organize_file_name_taken_in_directory (Scenario.started Scenario.home_clash)
             "/d/report.PDF" 0 "%PDF-1.7").
  - vm_compute. reflexivity.
  - vm_compute. reflexivity.
  - vm_compute. reflexivity.
  - vm_compute. reflexivity.
  - vm_compute. reflexivity.
Defined.

Lemma shutil_move_file_frame f src dst c d f2 :
  f !! src = Some (File c d) ->
  shutil_move f src dst = Ok f2 ->
  forall k,
    k <> src -> k <> dst ->
    k <> PurePath.str (PurePath.Path dst // PurePath.name (PurePath.Path src)) ->
    f2 !! k = f !! k.
Proof.
  intros Hsrc. unfold shutil_move.
  destruct (Posix.isdir f dst).
  - case_bool_decide.
    + intros Hmv k Hk1 Hk2 _. by eapply rename_file_frame.
    + destruct (Posix.exists_ f _); [done|].
      intros Hmv k Hk1 _ Hk3. by eapply rename_file_frame.
  - intros Hmv k Hk1 Hk2 _. by eapply rename_file_frame.
Qed.

(** X12. Called on a path that holds a regular file, [organize_file]
    changes nothing in the file system but the path itself, the folder of
    the category, the name of the file in that folder and, when that name
    is a directory, the name of the file inside it; it never touches the
    registry. *)
Theorem organize_file_frame s p c d k :
  fs s !! PurePath.str (PurePath.Path p) = Some (File c d) ->
  k <> PurePath.str (PurePath.Path p) ->
  k <> PurePath.str (dest_folder s p) ->
  k <> destination s p ->
  k <> PurePath.str (PurePath.Path (destination s p) // PurePath.name (PurePath.Path p)) ->
  fs (organize_file p s).2 !! k = fs s !! k
  /\ pending_files (organize_file p s).2 = pending_files s.
Proof.
  intros Hsrc Hk1 Hk2 Hk3 Hk4. split; [|apply organize_file_pending].
  rewrite organize_file_unfold, organize_body_unfold.
  unfold Path_exists, Posix.exists_. rewrite Hsrc. cbn [negb].
  destruct (Path_mkdir_exist_ok (fs s) (dest_folder s p)) as [f1|e1] eqn:Hmk; [|done].
  assert (f1 !! k = fs s !! k) as Hf1.
  { apply mkdir_exist_ok_inv in Hmk as [[-> _]|[_ ->]]; [done|]. by rewrite lookup_insert_ne. }
  pose proof (mkdir_exist_ok_keeps _ _ _ _ _ Hmk Hsrc) as Hsrc1.
  destruct (shutil_move f1 (PurePath.str (PurePath.Path p)) (destination s p))
    as [f2|e2] eqn:Hmv; [|done].
  simpl. rewrite <- Hf1. eapply shutil_move_file_frame; [done..|].
  by rewrite name_Path_str.
Qed.

Lemma organize_file_frame_witness :
  fs (organize_file "/d/report.PDF" (Scenario.started Scenario.home_taken)).2 !! "/d/photo.png"
  = Some (File (Scenario.hour 24) "PNG").
Proof.
  destruct (organize_file_frame (Scenario.started Scenario.home_taken) "/d/report.PDF"
              0 "%PDF-1.7" "/d/photo.png") as [Hfs _].
  - vm_compute. reflexivity.
  - vm_compute. discriminate.
  - vm_compute. discriminate.
  - vm_compute. discriminate.
  - vm_compute. discriminate.
  - rewrite Hfs. vm_compute. reflexivity.
Defined.

(** X13. Called on a regular file that already sits under its own name in
    the folder of its category, [organize_file] leaves the file system as
    it is and logs the move all the same. *)
Theorem organize_file_in_place s p c d :
  fs s !! PurePath.str (PurePath.Path p) = Some (File c d) ->
  PurePath.str (PurePath.Path p) = destination s p ->
  Path_is_dir (fs s) (dest_folder s p) = true ->
  organize_file p s = (Ok tt, add_log (organized_record p) s).
Proof.
  intros Hsrc Heq Hfolder.
  rewrite organize_file_unfold, organize_body_unfold.
  unfold Path_exists, Posix.exists_. rewrite Hsrc. cbn [negb].
  rewrite mkdir_exist_ok_dir by done.
  unfold shutil_move, Posix.isdir, Posix.rename. rewrite <- Heq, Hsrc.
  rewrite bool_decide_eq_true_2 by done. by destruct s.
Qed.

Lemma organize_file_in_place_witness :
  let f := <["/d/images" := Dir]> (<["/d/images/photo.png" := File 0 "PNG"]> Scenario.home) in
  organize_file "/d/images/photo.png" (mkState "/d" [] f [])
  = (Ok tt, add_log (organized_record "/d/images/photo.png") (mkState "/d" [] f [])).
Proof.
  intros f.
  apply (organize_file_in_place (mkState "/d" [] f []) "/d/images/photo.png" 0 "PNG").
  - vm_compute. reflexivity.
  - vm_compute. reflexivity.
  - vm_compute. reflexivity.
Defined.

(** ** Names without an extension *)

Lemma rfind_none c s : Str.count c s = 0%nat -> Str.rfind c s = -1.
Proof.
  induction s as [|a s IH]; simpl; [done|].
  case_bool_decide; [done|]. intros Hc. by rewrite IH.
Qed.

Lemma rfind_last c s : Str.rfind c (s +:+ String c "") = Str.len s.
Proof.
  induction s as [|a s IH].
  - simpl. by rewrite bool_decide_eq_true_2.
  - rewrite append_String, len_String. simpl. rewrite IH.
    pose proof (len_nonneg s) as Hlen. apply Z.leb_le in Hlen. by rewrite Hlen.
Qed.

Lemma len_append s t : Str.len (s +:+ t) = Str.len s + Str.len t.
Proof.
  induction s as [|a s IH]; [rewrite append_empty; unfold Str.len; simpl; lia|].
  rewrite append_String, !len_String, IH. lia.
Qed.

(** X14. A file whose name has no dot, or whose only dot is its first
    character, or whose last character is a dot, has no suffix for
    [pathlib]: [organize_file] files it under [others]. *)
Theorem no_suffix_goes_to_others file_path :
  let name := PurePath.name (PurePath.Path file_path) in
  Str.count "." name = 0%nat
  \/ (exists rest, name = String "." rest /\ Str.count "." rest = 0%nat)
  \/ (exists stem, name = stem +:+ ".") ->
  PurePath.suffix (PurePath.Path file_path) = ""
  /\ category_of file_path = "others".
Proof.
  intros name Hname.
  assert (PurePath.suffix (PurePath.Path file_path) = "") as Hsuffix.
  { unfold PurePath.suffix. fold name.
    destruct Hname as [Hnone|[(rest & -> & Hrest)|(stem & ->)]].
    - by rewrite (rfind_none _ _ Hnone).
    - simpl. by rewrite (rfind_none _ _ Hrest).
    - rewrite rfind_last, len_append.
      replace (Str.len stem + Str.len "." - 1) with (Str.len stem)
        by (unfold Str.len; simpl; lia).
      by rewrite Z.ltb_irrefl, andb_false_r. }
  split; [done|]. unfold category_of. by rewrite Hsuffix.
Qed.

Lemma no_suffix_goes_to_others_witness :
  category_of "/d/Makefile" = "others"
  /\ category_of "/d/.bashrc" = "others"
  /\ category_of "/d/archive.zip." = "others".
Proof.
  split; [|split].
  - apply (no_suffix_goes_to_others "/d/Makefile"). left. reflexivity.
  - apply (no_suffix_goes_to_others "/d/.bashrc"). right. left.
    exists "bashrc". split; reflexivity.
  - apply (no_suffix_goes_to_others "/d/archive.zip."). right. right.
    exists "archive.zip". reflexivity.
Defined.

(** ** Where files go *)

(** X15. Whatever directory the path handed to [organize_file] lies in, the
    place the file is moved to is the watched directory, then one of the
    seven categories, then the file's own name: a file notified from
    elsewhere is pulled into the watched directory. *)
Theorem destination_in_watched_directory s p :
  PurePath.name (PurePath.Path p) <> "" ->
  PurePath.Path (destination s p)
  = PurePath.mk (PurePath.root (PurePath.Path (downloads_path s)))
      (PurePath.tail (PurePath.Path (downloads_path s))
       ++ [category_of p; PurePath.name (PurePath.Path p)])
  /\ category_of p ∈ EXTENSIONS.*1
  /\ Posix.dirname (destination s p) = PurePath.str (dest_folder s p)
  /\ Posix.dirname (PurePath.str (dest_folder s p))
     = PurePath.str (PurePath.Path (downloads_path s)).
Proof.
  intros Hname%name_tail.
  pose proof (name_component _ (Path_wf p) Hname) as Hc.
  split.
  - unfold destination. rewrite Path_str by apply truediv_wf, dest_folder_wf.
    unfold dest_folder. rewrite truediv_component by done.
    rewrite truediv_component by apply classify_component. simpl.
    by rewrite <- app_assoc.
  - split; [apply classify_is_category|].
    split; [by apply destination_dirname|apply dest_folder_dirname].
Qed.

Lemma destination_in_watched_directory_witness :
  destination (Scenario.started Scenario.home) "/tmp/elsewhere/song.MP3" = "/d/music/song.MP3"
  /\ Posix.dirname (destination (Scenario.started Scenario.home) "/tmp/elsewhere/song.MP3")
     = "/d/music".
Proof.
  destruct (destination_in_watched_directory (Scenario.started Scenario.home)
              "/tmp/elsewhere/song.MP3") as (_ & _ & Hdir & _).
  - vm_compute. discriminate.
  - split; [vm_compute; reflexivity|]. rewrite Hdir. vm_compute. reflexivity.
Defined.

(** ** More on the sweep and the handler side by side *)

(** X16. A notification that comes for a path between the two loops of a
    sweep that has just called [organize_file] on it is lost: the clean-up
    deletes the entry the handler has just stamped, so that the sweep
    returns with the path out of the registry and no later sweep looks at
    the file that is now there. *)
Theorem renotification_after_visit_lost s now p t :
  reachable s ->
  p ∈ files_to_remove now s ->
  let schedule :=
    repeat Step (length (pending_files s) + 1)
    ++ Notify (mkEvent false p) t
       :: repeat Step (length (files_to_remove now s) + 1) in
  let r := run schedule (start_sweep now s) s in
  sw_phase r.1 = Returned
  /\ dict_get p (pending_files r.2) = None
  /\ forall now', p ∉ files_to_remove now' r.2.
Proof.
  intros Hwf%reachable_wf Hp schedule r. subst r schedule.
  rewrite files_to_remove_due in *.
  rewrite run_app.
  pose proof (run_iterating now (pending_files s) [] [] s eq_refl) as Hit.
  simpl in Hit. unfold start_sweep. rewrite Hit. cbn [fst snd run].
  set (s1 := organize_all (due now (pending_files s)) s).
  destruct (organize_all_pending (due now (pending_files s)) s) as [Hpend _].
  fold s1 in Hpend.
  set (s2 := (on_created (mkEvent false p) t s1).2).
  assert (dict_wf (pending_files s2)) as Hwf2
    by (apply on_created_wf; by rewrite Hpend).
  assert (due now (pending_files s) ⊆ (pending_files s2).*1) as Hsub.
  { intros x Hx%due_sub_keys.
    apply (prefix_subseteq _ _ (on_created_keys (mkEvent false p) t s1)).
    by rewrite Hpend. }
  pose proof (for_each_del_pending (due now (pending_files s)) s2 Hwf2
                (NoDup_due now _ Hwf) Hsub) as Hdel.
  erewrite run_deleting; [|done|exact Hdel]. simpl.
  assert (dict_get p
            (filter (fun kv => kv.1 ∉ due now (pending_files s)) (pending_files s2)) = None)
    as Hgone by (by rewrite dict_get_filter_keys, decide_True).
  split; [done|]. split; [done|].
  intros now'. rewrite files_to_remove_due. simpl.
  intros Hin%due_sub_keys. by apply dict_get_None in Hgone.
Qed.

Lemma renotification_after_visit_lost_witness :
  let r := run (repeat Step 3
                ++ Notify (Scenario.created "/d/report.PDF") (Scenario.hour 25)
                   :: repeat Step 2)
             (start_sweep (Scenario.hour 25) (Scenario.started Scenario.home))
             (Scenario.started Scenario.home) in
  sw_phase r.1 = Returned /\ dict_get "/d/report.PDF" (pending_files r.2) = None.
Proof.
  intros r.
  destruct (renotification_after_visit_lost (Scenario.started Scenario.home)
              (Scenario.hour 25) "/d/report.PDF" (Scenario.hour 25))
    as (Hph & Hget & _).
  - apply reachable_init.
  - vm_compute. by left.
  - split; [exact Hph|exact Hget].
Defined.

Lemma sweep_step_quiet keys0 sw s :
  sweep_inv keys0 sw s ->
  (sw_phase sw = Iterating -> (pending_files s).*1 = keys0) ->
  (forall e, sw_phase sw <> Raised e) ->
  (sw_phase (sweep_step sw s).1 = Iterating -> (pending_files (sweep_step sw s).2).*1 = keys0)
  /\ forall e, sw_phase (sweep_step sw s).1 <> Raised e.
Proof.
  intros (Hwf & Hnd & Hsub & Hph) Hkeys Hnr. unfold sweep_step.
  destruct (sw_phase sw) as [|[|p rest]| |e] eqn:Hphase; simpl.
  - destruct Hph as (Hused & _ & _). specialize (Hkeys eq_refl).
    rewrite bool_decide_eq_false_2.
    2:{ intros Hne. apply Hne. by rewrite Hused, <- Hkeys, length_fmap. }
    destruct (pending_files s !! di_pos sw) as [[p c]|]; simpl; [|done].
    case_bool_decide; simpl; [|done].
    rewrite organize_file_state. simpl.
    by destruct (organize_file_pending p s) as [-> _].
  - done.
  - destruct Hph as (_ & Htodo). unfold del_pending.
    rewrite dict_delitem_wf; [|done|apply Htodo; by left]. simpl. done.
  - rewrite Hphase. done.
  - by destruct (Hnr e).
Qed.

Lemma run_quiet keys0 schedule sw s :
  NoDup keys0 ->
  sweep_inv keys0 sw s ->
  (sw_phase sw = Iterating -> (pending_files s).*1 = keys0) ->
  (forall e, sw_phase sw <> Raised e) ->
  (forall ev t, Notify ev t ∈ schedule -> is_directory ev = true \/ src_path ev ∈ keys0) ->
  forall e, sw_phase (run schedule sw s).1 <> Raised e.
Proof.
  intros Hnd0. revert sw s.
  induction schedule as [|[|ev t] rest IH]; intros sw s Hinv Hkeys Hnr Hquiet; simpl.
  - done.
  - pose proof (sweep_inv_step keys0 sw s Hnd0 Hinv) as Hinv'.
    destruct (sweep_step_quiet keys0 sw s Hinv Hkeys Hnr) as [Hkeys' Hnr'].
    destruct (sweep_step sw s) as [sw' s']. apply IH; [done..|].
    intros ev t Hin. apply (Hquiet ev t). by right.
  - apply IH; [by apply sweep_inv_notify| |done|].
    + intros Hph. specialize (Hkeys Hph).
      destruct (is_directory ev) eqn:Hd; [by rewrite on_created_directory|].
      destruct (Hquiet ev t) as [Hd'|Hin]; [by left|congruence|].
      rewrite on_created_file by done. simpl. rewrite dict_setitem_keys.
      destruct (dict_get (src_path ev) (pending_files s)) eqn:Hg; [done|].
      apply dict_get_None in Hg. by rewrite Hkeys in Hg.
    + intros ev' t' Hin. apply (Hquiet ev' t'). by right.
Qed.

(** X17. Notifications for directories and for paths that were pending
    when the sweep started never make a sweep raise, wherever they fall
    between its iterations: only the insertion of a path that is not
    pending changes the size of the dictionary under the iterator. *)
Theorem renotifications_never_abort s now schedule :
  reachable s ->
  (forall ev t,
     Notify ev t ∈ schedule ->
     is_directory ev = true \/ src_path ev ∈ (pending_files s).*1) ->
  forall e, sw_phase (run schedule (start_sweep now s) s).1 <> Raised e.
Proof.
  intros Hwf%reachable_wf Hquiet.
  apply (run_quiet (pending_files s).*1); [done|by apply sweep_inv_start|done|done|done].
Qed.

Lemma renotifications_never_abort_witness :
  sw_phase
    (run [Step; Notify (Scenario.created "/d/photo.png") (Scenario.hour 49); Step; Step;
          Notify (mkEvent true "/d/folder") (Scenario.hour 49); Step; Step; Step]
       (start_sweep (Scenario.hour 49) (Scenario.started Scenario.home))
       (Scenario.started Scenario.home)).1
  <> Raised (RuntimeError "dictionary changed size during iteration").
Proof.
  apply (renotifications_never_abort (Scenario.started Scenario.home) (Scenario.hour 49)).
  - apply reachable_init.
  - intros ev t Hin.
    repeat (apply elem_of_cons in Hin as [Heq|Hin];
            [try discriminate Heq; injection Heq as -> ->|]);
      [right; vm_compute; right; by left|by left|by apply elem_of_nil in Hin].
Defined.
